(** * inventory.py: a shallow embedding and its verified properties

    The script keeps a global list of [Shoe] objects ([shoe_list]), loads
    it from [inventory.txt], appends a line to that file on every add and
    rewrites the file on every restock.  The embedding follows the script
    function by function and keeps its names.

    - Python [str] values are lists of characters ([str]).  The model
      covers ASCII text, where [str.upper], [str.strip] and [str.split]
      have the definitions given below.
    - Python [int] is [Z].  Python [float] is IEEE binary64, taken as
      [spec_float] at precision 53 and maximal exponent 1024 with the
      correctly rounded operations of [SpecFloat]; [float(text)],
      [repr] and the format [.2f] are given as executable definitions.
    - The global list, the file, the lines the user will type and what
      the console shows form a [world].  Every function of the script is
      a computation over the world that either returns or raises; a
      raised exception keeps the world as it was at the point of the
      raise, which is what an [except] clause finds.
    - The file is a text file on a system whose line separator is the
      line feed, and reading and writing it never fail.
    - The loop of [main] runs for a bounded number of rounds; every
      round reads a line, so one round more than there are lines to
      read is enough, and the bound is shown never to be reached.
      [sum] over floats depends on the version of the interpreter and
      is a parameter of [total_warehouse_value] and [main]. *)

From Stdlib Require Import Ascii String.
From Stdlib Require Import ZArith List Bool Lia.
From Stdlib Require Import Sorted Permutation.
From Stdlib Require Import Floats.SpecFloat.
Import ListNotations.

Set Implicit Arguments.

Local Open Scope Z_scope.

(* ================================================================== *)
(** * Python text *)
(* ================================================================== *)

Module PyStr.

Definition str := list ascii.

(** A literal: [s "abc"] is the Python string ['abc']. *)
Definition s (x : string) : str := list_ascii_of_string x.

Definition chr (n : nat) : ascii := ascii_of_nat n.
Definition ord (c : ascii) : nat := nat_of_ascii c.

Definition LF : ascii := chr 10.
Definition CR : ascii := chr 13.
Definition comma : ascii := ","%char.

Definition eqb (a b : str) : bool :=
  if list_eq_dec ascii_dec a b then true else false.

(** [str.isspace] on one ASCII character: TAB, LF, VT, FF, CR, the four
    separators FS, GS, RS, US, and SPACE. *)
Definition isspace (c : ascii) : bool :=
  let n := ord c in
  ((9 <=? n) && (n <=? 13) || (28 <=? n) && (n <=? 32))%nat.

(** The C locale's [isspace], which [int()] and [float()] use on ASCII
    text: TAB, LF, VT, FF, CR and SPACE. *)
Definition c_isspace (c : ascii) : bool :=
  let n := ord c in
  ((9 <=? n) && (n <=? 13) || (n =? 32))%nat.

Fixpoint dropWhile (p : ascii -> bool) (x : str) : str :=
  match x with
  | [] => []
  | c :: r => if p c then dropWhile p r else x
  end.

Definition strip_with (p : ascii -> bool) (x : str) : str :=
  rev (dropWhile p (rev (dropWhile p x))).

(** [x.strip()] *)
Definition strip (x : str) : str := strip_with isspace x.

(** [x.split(sep)] for a one-character separator: never the empty list. *)
Fixpoint split (sep : ascii) (x : str) : list str :=
  match x with
  | [] => [[]]
  | c :: r =>
      if ascii_dec c sep then [] :: split sep r
      else match split sep r with
           | [] => [[c]]
           | w :: ws => (c :: w) :: ws
           end
  end.

(** [sep.join(xs)] *)
Fixpoint join (sep : ascii) (xs : list str) : str :=
  match xs with
  | [] => []
  | [x] => x
  | x :: r => x ++ sep :: join sep r
  end.

Definition upper_char (c : ascii) : ascii :=
  let n := ord c in
  if ((97 <=? n) && (n <=? 122))%nat then chr (n - 32) else c.

Definition lower_char (c : ascii) : ascii :=
  let n := ord c in
  if ((65 <=? n) && (n <=? 90))%nat then chr (n + 32) else c.

(** [x.upper()] and [x.lower()] *)
Definition upper (x : str) : str := map upper_char x.
Definition lower (x : str) : str := map lower_char x.

(** Reading a file opened in text mode translates ["\r\n"] and a lone
    ["\r"] into ["\n"]. *)
Fixpoint universal_newlines (x : str) : str :=
  match x with
  | [] => []
  | c :: r =>
      if ascii_dec c CR then
        match r with
        | d :: _ => if ascii_dec d LF then universal_newlines r
                    else LF :: universal_newlines r
        | [] => [LF]
        end
      else c :: universal_newlines r
  end.

(** The lines a [for line in file] loop sees, each without its final
    newline (the loop body strips it): the text is cut at every newline,
    and what follows the last newline is a line only when it is not
    empty. *)
Definition lines_of (text : str) : list str :=
  let pieces := split LF (universal_newlines text) in
  match rev pieces with
  | [] :: before => rev before
  | _ => pieces
  end.

End PyStr.

Import PyStr.

(* ================================================================== *)
(** * Python numbers *)
(* ================================================================== *)

Module PyNum.

(** ** Decimal digits *)

Definition isdigit (c : ascii) : bool :=
  ((48 <=? ord c) && (ord c <=? 57))%nat.

Definition digit_val (c : ascii) : Z := Z.of_nat (ord c) - 48.
Definition digit_chr (d : Z) : ascii := chr (Z.to_nat (d + 48)).

(** The number a run of digits denotes, most significant digit first. *)
Definition digits_val (ds : str) : Z :=
  fold_left (fun acc c => 10 * acc + digit_val c) ds 0.

Fixpoint digits_fuel (fuel : nat) (n : Z) (acc : str) : str :=
  match fuel with
  | O => acc
  | S f =>
      if n <? 10 then digit_chr n :: acc
      else digits_fuel f (n / 10) (digit_chr (n mod 10) :: acc)
  end.

(** The decimal digits of [n >= 0], without leading zeros. *)
Definition digits (n : Z) : str :=
  digits_fuel (S (Z.to_nat (Z.log2 n))) n [].

(** [str(n)] for an [int]. *)
Definition str_of_int (n : Z) : str :=
  if n <? 0 then "-"%char :: digits (- n) else digits n.

(** ** Reading numbers from text *)

Definition split_sign (x : str) : bool * str :=
  match x with
  | c :: r =>
      if ascii_dec c "-"%char then (true, r)
      else if ascii_dec c "+"%char then (false, r)
      else (false, x)
  | [] => (false, x)
  end.

(** Digit grouping: an underscore is accepted only between two digits,
    and is dropped.  [prev] is the character before [x]. *)
Fixpoint ungroup (prev : ascii) (x : str) : option str :=
  match x with
  | [] => if ascii_dec prev "_"%char then None else Some []
  | c :: r =>
      if ascii_dec c "_"%char then
        if isdigit prev then ungroup c r else None
      else if ascii_dec prev "_"%char then
        if isdigit c then option_map (cons c) (ungroup c r) else None
      else option_map (cons c) (ungroup c r)
  end.

Fixpoint span (p : ascii -> bool) (x : str) : str * str :=
  match x with
  | [] => ([], [])
  | c :: r =>
      if p c then let '(a, b) := span p r in (c :: a, b) else ([], x)
  end.

Definition nonempty (x : str) : bool :=
  match x with [] => false | _ => true end.

(** [int(x)] for a [str]: [None] is [ValueError]. *)
Definition int_of_str (x : str) : option Z :=
  let '(neg, body) := split_sign (strip_with c_isspace x) in
  match ungroup (chr 0) body with
  | Some ds =>
      if nonempty ds && forallb isdigit ds
      then Some (if neg then - digits_val ds else digits_val ds)
      else None
  | None => None
  end.

(** ** Binary64 *)

Definition float := spec_float.
Definition prec : Z := 53.
Definition emax : Z := 1024.

Definition zero : float := S754_zero false.
Definition fadd : float -> float -> float := SFadd prec emax.
Definition fmul : float -> float -> float := SFmul prec emax.
Definition fltb : float -> float -> bool := SFltb.
Definition feqb : float -> float -> bool := SFeqb.

(** [float(n)] for an [int]: the nearest binary64 number, and
    [OverflowError] ([None]) when that is beyond the largest one. *)
Definition float_of_int (n : Z) : option float :=
  match binary_normalize prec emax n 0 false with
  | S754_infinity _ => None
  | f => Some f
  end.

(** The binary64 number nearest to [m * 10^e] (ties to even), for
    [m >= 0], with the sign [neg]. *)
Definition round_decimal (neg : bool) (m e : Z) : float :=
  match m with
  | Zpos p =>
      if 0 <=? e then
        match m * 10 ^ e with
        | Zpos n => binary_round prec emax neg n 0
        | _ => S754_nan
        end
      else
        let '(q, e', l) := SFdiv_core_binary prec emax m 0 (10 ^ (- e)) 0 in
        binary_round_aux prec emax neg q e' l
  | _ => S754_zero neg
  end.

(** The mantissa and decimal exponent of [digits[.digits][e[sign]digits]];
    the text has to match as a whole and to hold a digit before the
    exponent. *)
Definition parse_exponent (x : str) : option Z :=
  match x with
  | [] => Some 0
  | c :: r =>
      if ascii_dec (lower_char c) "e"%char then
        let '(eneg, r') := split_sign r in
        let '(ed, rest) := span isdigit r' in
        if nonempty ed && negb (nonempty rest)
        then Some (if eneg then - digits_val ed else digits_val ed)
        else None
      else None
  end.

Definition parse_decimal (x : str) : option (Z * Z) :=
  let '(ip, r1) := span isdigit x in
  let '(fp, r2) :=
    match r1 with
    | c :: r => if ascii_dec c "."%char then span isdigit r else ([], r1)
    | [] => ([], r1)
    end in
  if nonempty (ip ++ fp) then
    match parse_exponent r2 with
    | Some e => Some (digits_val (ip ++ fp), e - Z.of_nat (length fp))
    | None => None
    end
  else None.

(** [float(x)] for a [str]: [None] is [ValueError]. *)
Definition float_of_str (x : str) : option float :=
  match ungroup (chr 0) (strip_with c_isspace x) with
  | Some t =>
      let '(neg, body) := split_sign t in
      let word := lower body in
      if eqb word (s "inf") || eqb word (s "infinity")
      then Some (S754_infinity neg)
      else if eqb word (s "nan") then Some S754_nan
      else match parse_decimal body with
           | Some (m, e) => Some (round_decimal neg m e)
           | None => None
           end
  | None => None
  end.

(** ** Writing numbers as text *)

Definition two_digits (n : Z) : str := [digit_chr (n / 10); digit_chr (n mod 10)].

(** [m * 2^e * 100] rounded to the nearest integer, ties to even. *)
Definition cents (m : positive) (e : Z) : Z :=
  if 0 <=? e then Zpos m * 2 ^ e * 100
  else
    let a := Zpos m * 100 in
    let b := 2 ^ (- e) in
    let q := a / b in
    match (2 * (a mod b)) ?= b with
    | Lt => q
    | Gt => q + 1
    | Eq => if Z.even q then q else q + 1
    end.

Definition signed (neg : bool) (x : str) : str :=
  if neg then "-"%char :: x else x.

(** [format(x, ".2f")] *)
Definition format_2f (x : float) : str :=
  match x with
  | S754_nan => s "nan"
  | S754_infinity neg => signed neg (s "inf")
  | S754_zero neg => signed neg (s "0.00")
  | S754_finite neg m e =>
      let n := cents m e in
      signed neg (digits (n / 100) ++ "."%char :: two_digits (n mod 100))
  end.

(** [repr(x)]: the shortest run of digits that reads back as [x], the
    closest to [x] among those, laid out with a decimal point when the
    decimal exponent is between -4 and 16 and with an exponent
    otherwise. *)

Fixpoint ilog10_up (fuel : nat) (num den k : Z) : Z :=
  match fuel with
  | O => k
  | S f => if den * 10 <=? num then ilog10_up f num (den * 10) (k + 1) else k
  end.

Fixpoint ilog10_down (fuel : nat) (num den k : Z) : Z :=
  match fuel with
  | O => k
  | S f => if num <? den then ilog10_down f (num * 10) den (k - 1) else k
  end.

(** [k] with [10^k <= num/den < 10^(k+1)], for a binary64 magnitude. *)
Definition ilog10 (num den : Z) : Z :=
  if den <=? num then ilog10_up 400 num den 0 else ilog10_down 400 num den 0.

Definition scaled (num den q : Z) : Z * Z :=
  if 0 <=? q then (num, den * 10 ^ q) else (num * 10 ^ (- q), den).

Definition reads_back (x : float) (d q : Z) : bool :=
  feqb (round_decimal false d q) x.

Definition nearest (lo r b : Z) : Z :=
  match (2 * r) ?= b with
  | Lt => lo
  | Gt => lo + 1
  | Eq => if Z.even lo then lo else lo + 1
  end.

(** The [p]-digit decimals next to [x = num/den] that read back as [x]. *)
Definition shortest_at (x : float) (num den k : Z) (p : Z) : option (Z * Z) :=
  let q := k - p + 1 in
  let '(a, b) := scaled num den q in
  let lo := a / b in
  let r := a mod b in
  if r =? 0 then (if reads_back x lo q then Some (lo, q) else None)
  else
    match reads_back x lo q, reads_back x (lo + 1) q with
    | true, true => Some (nearest lo r b, q)
    | true, false => Some (lo, q)
    | false, true => Some (lo + 1, q)
    | false, false => None
    end.

Fixpoint shortest (fuel : nat) (x : float) (num den k : Z) (p : Z) : Z * Z :=
  match fuel with
  | O =>
      let q := k - p + 1 in
      let '(a, b) := scaled num den q in
      (nearest (a / b) (a mod b) b, q)
  | S f =>
      match shortest_at x num den k p with
      | Some r => r
      | None => shortest f x num den k (p + 1)
      end
  end.

Definition zeros (n : nat) : str := repeat "0"%char n.

Definition is_zero_chr (c : ascii) : bool :=
  if ascii_dec c "0"%char then true else false.

Definition exponent_text (e : Z) : str :=
  let ds := digits (Z.abs e) in
  (if e <? 0 then "-"%char else "+"%char)
    :: (if Z.abs e <? 10 then "0"%char :: ds else ds).

(** The layout of the digits [ds] with the decimal point after the
    first [decpt] of them. *)
Definition layout (ds : str) (decpt : Z) : str :=
  if (-4 <? decpt) && (decpt <=? 16) then
    if decpt <=? 0 then s "0." ++ zeros (Z.to_nat (- decpt)) ++ ds
    else if Z.of_nat (length ds) <=? decpt
         then ds ++ zeros (Z.to_nat decpt - length ds) ++ s ".0"
         else firstn (Z.to_nat decpt) ds ++ "."%char :: skipn (Z.to_nat decpt) ds
  else
    match ds with
    | [] => []
    | d :: [] => d :: "e"%char :: exponent_text (decpt - 1)
    | d :: more => d :: "."%char :: more ++ "e"%char :: exponent_text (decpt - 1)
    end.

Definition repr_float (x : float) : str :=
  match x with
  | S754_nan => s "nan"
  | S754_infinity neg => signed neg (s "inf")
  | S754_zero neg => signed neg (s "0.0")
  | S754_finite neg m e =>
      let '(num, den) := if 0 <=? e then (Zpos m * 2 ^ e, 1) else (Zpos m, 2 ^ (- e)) in
      let k := ilog10 num den in
      let '(d, q) := shortest 16 (S754_finite false m e) num den k 1 in
      let all := digits d in
      let ds := rev (dropWhile is_zero_chr (rev all)) in
      signed neg (layout ds (Z.of_nat (length all) + q))
  end.

End PyNum.

Import PyNum.

(* ================================================================== *)
(** * The world of the script and its computations *)
(* ================================================================== *)

(** [class Shoe]: the five attributes set by [__init__]. *)
Record Shoe := mkShoe {
  country : str;
  code : str;
  product : str;
  cost : float;
  quantity : Z
}.

(** What the console shows: a [print] call, the prompt of an [input]
    call, and a printed [tabulate] grid (kept as headers and rows). *)
Inductive cell := CStr (x : str) | CInt (n : Z).

Inductive event :=
| Print (x : str)
| Prompt (x : str)
| Tabulate (headers : list str) (rows : list (list cell)).

(** [shoe_list] is the global list; [inventory_txt] is the content of
    the file [inventory.txt], [None] when the file does not exist;
    [stdin] holds the lines the user will type. *)
Record world := mkWorld {
  shoe_list : list Shoe;
  inventory_txt : option str;
  stdin : list str;
  stdout : list event
}.

Inductive exn_kind := ValueError | OverflowError | EOFError | StopIteration.

(** An exception with the text [str(e)] shows.  The offending literal is
    shown between quotes as it is, which is Python's rendering for text
    without quotes, backslashes or control characters. *)
Record exn := mkExn { kind : exn_kind; message : str }.

Inductive result (A : Type) :=
| Return (a : A) (w : world)
| Raise (e : exn) (w : world).

Arguments Raise {A} e w.

Definition M (A : Type) := world -> result A.

Definition ret {A} (a : A) : M A := fun w => Return a w.

Definition bind {A B} (m : M A) (k : A -> M B) : M B :=
  fun w => match m w with
           | Return a w' => k a w'
           | Raise e w' => Raise e w'
           end.

Definition raise {A} (e : exn) : M A := fun w => Raise e w.

(** [try: m  except <kinds>: h] *)
Definition try_except {A} (m : M A) (catches : exn_kind -> bool) (h : exn -> M A) : M A :=
  fun w => match m w with
           | Return a w' => Return a w'
           | Raise e w' => if catches (kind e) then h e w' else Raise e w'
           end.

Declare Scope py_scope.
Delimit Scope py_scope with py.
Notation "x <- m ;; k" := (bind m (fun x => k))
  (at level 61, m at next level, right associativity) : py_scope.
Notation "m ;; k" := (bind m (fun _ => k))
  (at level 61, right associativity) : py_scope.
Local Open Scope py_scope.

(** The world a computation ends in, returned or raised. *)
Definition world_of {A} (r : result A) : world :=
  match r with Return _ w => w | Raise _ w => w end.

Definition Exception (k : exn_kind) : bool := true.

Definition only_ValueError (k : exn_kind) : bool :=
  match k with ValueError => true | _ => false end.

(** ** Console and file primitives *)

Definition emit (e : event) : M unit :=
  fun w => Return tt (mkWorld (shoe_list w) (inventory_txt w) (stdin w) (stdout w ++ [e])).

Definition print (x : str) : M unit := emit (Print x).

Definition end_of_input : exn := mkExn EOFError (s "EOF when reading a line").

(** [input(prompt)]: [EOFError] when no line is left. *)
Definition input (prompt : str) : M str :=
  fun w =>
    let out := stdout w ++ [Prompt prompt] in
    match stdin w with
    | [] => Raise end_of_input (mkWorld (shoe_list w) (inventory_txt w) [] out)
    | x :: rest => Return x (mkWorld (shoe_list w) (inventory_txt w) rest out)
    end.

Definition get_shoes : M (list Shoe) := fun w => Return (shoe_list w) w.

Definition set_shoes (l : list Shoe) : M unit :=
  fun w => Return tt (mkWorld l (inventory_txt w) (stdin w) (stdout w)).

Definition get_file : M (option str) := fun w => Return (inventory_txt w) w.

(** [open('inventory.txt', 'w')] followed by the writes [text]. *)
Definition write_file (text : str) : M unit :=
  fun w => Return tt (mkWorld (shoe_list w) (Some text) (stdin w) (stdout w)).

(** [open('inventory.txt', 'a')] followed by the write [text]. *)
Definition append_file (text : str) : M unit :=
  fun w =>
    let old := match inventory_txt w with Some t => t | None => [] end in
    Return tt (mkWorld (shoe_list w) (Some (old ++ text)) (stdin w) (stdout w)).

(** ** Conversions as the constructor applies them *)

(** The arguments [Shoe(...)] receives for cost and quantity: text when
    loading, numbers when adding. *)
Inductive value := VStr (x : str) | VFloat (x : float) | VInt (n : Z).

Definition quoted (x : str) : str := "'"%char :: x ++ ["'"%char].

Definition bad_float (x : str) : exn :=
  mkExn ValueError (s "could not convert string to float: " ++ quoted x).

Definition bad_int (x : str) : exn :=
  mkExn ValueError (s "invalid literal for int() with base 10: " ++ quoted x).

(** [float(v)] *)
Definition py_float (v : value) : M float :=
  match v with
  | VFloat x => ret x
  | VStr x =>
      match float_of_str x with
      | Some f => ret f
      | None => raise (bad_float x)
      end
  | VInt n =>
      match float_of_int n with
      | Some f => ret f
      | None => raise (mkExn OverflowError (s "int too large to convert to float"))
      end
  end.

(** [int(v)]; a float is truncated towards zero. *)
Definition py_int (v : value) : M Z :=
  match v with
  | VInt n => ret n
  | VStr x =>
      match int_of_str x with
      | Some n => ret n
      | None => raise (bad_int x)
      end
  | VFloat x =>
      match x with
      | S754_zero _ => ret 0
      | S754_finite neg m e =>
          let a := if 0 <=? e then Zpos m * 2 ^ e else Zpos m / 2 ^ (- e) in
          ret (if neg then - a else a)
      | S754_infinity _ => raise (mkExn OverflowError (s "cannot convert float infinity to integer"))
      | S754_nan => raise (mkExn ValueError (s "cannot convert float NaN to integer"))
      end
  end.

(** [Shoe.__init__] *)
Definition Shoe_init (country code product : str) (cost quantity : value) : M Shoe :=
  c <- py_float cost ;;
  q <- py_int quantity ;;
  ret (mkShoe country code product c q).

(** [Shoe.__str__] *)
Definition Shoe_str (sh : Shoe) : str :=
  join comma [country sh; code sh; product sh; repr_float (cost sh); str_of_int (quantity sh)].

(** [shoe_list.append(shoe)] *)
Definition append_shoe (sh : Shoe) : M unit :=
  l <- get_shoes ;; set_shoes (l ++ [sh]).

(* ================================================================== *)
(** * File operations *)
(* ================================================================== *)

Definition header : str := s "country,code,product,cost,quantity".

(** The body of [for line in file] in [read_shoes_data]. *)
Definition load_line (line : str) : M unit :=
  match split comma (strip line) with
  | [d0; d1; d2; d3; d4] =>
      shoe <- Shoe_init d0 d1 d2 (VStr d3) (VStr d4) ;;
      append_shoe shoe
  | _ => ret tt
  end.

Fixpoint for_lines (ls : list str) : M unit :=
  match ls with
  | [] => ret tt
  | line :: rest => load_line line ;; for_lines rest
  end.

(** [next(file)] and the loop over the remaining lines. *)
Definition read_lines (text : str) : M unit :=
  match lines_of text with
  | [] => raise (mkExn StopIteration [])
  | _ :: body => for_lines body
  end.

Definition read_shoes_data : M bool :=
  set_shoes [] ;;
  try_except
    (f <- get_file ;;
     match f with
     | None =>
         write_file header ;;
         print (s "Created new inventory file") ;;
         ret false
     | Some text =>
         read_lines text ;;
         ret true
     end)
    Exception
    (fun e => print (s "Error loading inventory: " ++ message e) ;; ret false).

(** The first statement of [main]. *)
Definition main_load : M unit :=
  ok <- read_shoes_data ;;
  if ok then
    l <- get_shoes ;;
    print (LF :: s "Loaded " ++ str_of_int (Z.of_nat (length l)) ++ s " shoes from inventory")
  else print (LF :: s "Starting with empty inventory").

(* ================================================================== *)
(** * Inventory operations *)
(* ================================================================== *)

(** A [while True] loop that prompts until [check] accepts a line, by
    recursion on the lines still to be typed: what it shows, and the
    accepted value with the lines left ([None]: the input ran out, which
    is [EOFError]). *)
Fixpoint prompt_until {A} (prompt : str) (check : str -> A + str) (ins : list str)
  : list event * option (A * list str) :=
  match ins with
  | [] => ([Prompt prompt], None)
  | x :: rest =>
      match check x with
      | inl a => ([Prompt prompt], Some (a, rest))
      | inr complaint =>
          let '(shown, r) := prompt_until prompt check rest in
          (Prompt prompt :: Print complaint :: shown, r)
      end
  end.

Definition ask {A} (prompt : str) (check : str -> A + str) : M A :=
  fun w =>
    let '(shown, r) := prompt_until prompt check (stdin w) in
    let out := stdout w ++ shown in
    match r with
    | Some (a, rest) => Return a (mkWorld (shoe_list w) (inventory_txt w) rest out)
    | None => Raise end_of_input (mkWorld (shoe_list w) (inventory_txt w) [] out)
    end.

(** One round of the cost loop: [float(input(...))], then [cost > 0]. *)
Definition check_cost (x : str) : float + str :=
  match float_of_str x with
  | Some c => if fltb zero c then inl c else inr (s "Cost must be positive")
  | None => inr (s "Please enter a valid number")
  end.

(** One round of the quantity loop: [int(input(...))], then [quantity >= 0]. *)
Definition check_quantity (x : str) : Z + str :=
  match int_of_str x with
  | Some q => if 0 <=? q then inl q else inr (s "Quantity can't be negative")
  | None => inr (s "Please enter a whole number")
  end.

Definition capture_shoes : M unit :=
  print (LF :: s "=== Add New Shoe ===") ;;
  country <- input (s "Country: ") ;;
  typed <- input (s "Code: ") ;;
  let code := upper typed in
  product <- input (s "Product: ") ;;
  cost <- ask (s "Cost (R): ") check_cost ;;
  quantity <- ask (s "Quantity: ") check_quantity ;;
  shoe <- Shoe_init country code product (VFloat cost) (VInt quantity) ;;
  append_shoe shoe ;;
  try_except
    (append_file (LF :: join comma [country; code; product; repr_float cost; str_of_int quantity]) ;;
     print (s "Shoe added successfully!"))
    Exception
    (fun e => print (s "Error saving shoe: " ++ message e)).

(** [min(shoe_list, key=lambda x: x.quantity)] and [max(...)]: the scan
    keeps the first item and replaces it only by a strictly smaller
    (strictly larger) one.  The object it returns is given with its
    position in the list, which is what identifies it. *)
Fixpoint scan_best (better : Z -> Z -> bool) (best : nat * Shoe) (i : nat) (l : list Shoe)
  : nat * Shoe :=
  match l with
  | [] => best
  | sh :: rest =>
      if better (quantity sh) (quantity (snd best))
      then scan_best better (i, sh) (S i) rest
      else scan_best better best (S i) rest
  end.

Definition best_of (better : Z -> Z -> bool) (l : list Shoe) : option (nat * Shoe) :=
  match l with
  | [] => None
  | sh :: rest => Some (scan_best better (0%nat, sh) 1%nat rest)
  end.

Definition py_min : list Shoe -> option (nat * Shoe) := best_of Z.ltb.
Definition py_max : list Shoe -> option (nat * Shoe) := best_of Z.gtb.

(** [obj.quantity += add] on the object at position [i] of the list. *)
Fixpoint add_quantity_at (i : nat) (add : Z) (l : list Shoe) : list Shoe :=
  match l, i with
  | [], _ => []
  | sh :: rest, O =>
      mkShoe (country sh) (code sh) (product sh) (cost sh) (quantity sh + add) :: rest
  | sh :: rest, S j => sh :: add_quantity_at j add rest
  end.

(** The text the rewrite leaves in the file. *)
Definition file_text (l : list Shoe) : str :=
  header ++ concat (map (fun sh => LF :: Shoe_str sh) l).

Definition money (x : float) : str := "R"%char :: format_2f x.

(** The lines [re_stock] shows about the shoe it picked. *)
Definition show_lowest (lowest : Shoe) : M unit :=
  print (LF :: s "Shoe needing restock:") ;;
  print (s "Country: " ++ country lowest) ;;
  print (s "Code: " ++ code lowest) ;;
  print (s "Product: " ++ product lowest) ;;
  print (s "Cost: " ++ money (cost lowest)) ;;
  print (s "Current Quantity: " ++ str_of_int (quantity lowest)).

(** The [try] block of [re_stock], for the shoe at position [i] of [l]. *)
Definition restock_by (i : nat) (l : list Shoe) : M unit :=
  try_except
    (typed <- input (s "Quantity to add: ") ;;
     add <- py_int (VStr typed) ;;
     if 0 <? add then
       set_shoes (add_quantity_at i add l) ;;
       l' <- get_shoes ;;
       write_file (file_text l') ;;
       print (s "Restock successful!")
     else print (s "Quantity must be positive"))
    only_ValueError
    (fun _ => print (s "Invalid quantity")).

Definition re_stock : M unit :=
  l <- get_shoes ;;
  match py_min l with
  | None => print (s "No shoes in inventory")
  | Some (i, lowest) =>
      show_lowest lowest ;;
      answer <- input (s "Restock? (yes/no): ") ;;
      if eqb (lower answer) (s "yes") then restock_by i l else ret tt
  end.

(** The loop of [search_shoe]: the first shoe whose code is [wanted]. *)
Fixpoint find_code (wanted : str) (l : list Shoe) : option Shoe :=
  match l with
  | [] => None
  | sh :: rest => if eqb (code sh) wanted then Some sh else find_code wanted rest
  end.

(** The lines [search_shoe] shows about the shoe it found. *)
Definition show_found (shoe : Shoe) : M unit :=
  print (LF :: s "=== Shoe Found ===") ;;
  print (s "Country: " ++ country shoe) ;;
  print (s "Code: " ++ code shoe) ;;
  print (s "Product: " ++ product shoe) ;;
  print (s "Cost: " ++ money (cost shoe)) ;;
  print (s "Quantity: " ++ str_of_int (quantity shoe)).

Definition search_shoe : M unit :=
  l <- get_shoes ;;
  match l with
  | [] => print (s "No shoes in inventory")
  | _ =>
      typed <- input (s "Enter shoe code: ") ;;
      let wanted := upper typed in
      match find_code wanted l with
      | Some shoe => show_found shoe
      | None => print (s "Shoe not found")
      end
  end.

(** The lines [highest_qty] shows about the shoe it picked. *)
Definition show_highest (highest : Shoe) : M unit :=
  print (LF :: s "=== Shoe For Sale ===") ;;
  print (s "Product: " ++ product highest) ;;
  print (s "Code: " ++ code highest) ;;
  print (s "Quantity: " ++ str_of_int (quantity highest)) ;;
  print (s "Cost: " ++ money (cost highest)) ;;
  print (LF :: s "This shoe should be marked for sale!").

Definition highest_qty : M unit :=
  l <- get_shoes ;;
  match py_max l with
  | None => print (s "No shoes in inventory")
  | Some (_, highest) => show_highest highest
  end.

(** ** The report by country *)

Record stats := mkStats {
  total_value : float;
  total_quantity : Z;
  products : Z
}.

(** [country_stats]: a dict keeps its keys in the order they were first
    inserted, so it is a list of entries with distinct keys. *)
Definition dict := list (str * stats).

Fixpoint has_key (k : str) (d : dict) : bool :=
  match d with
  | [] => false
  | (k', _) :: rest => eqb k' k || has_key k rest
  end.

Fixpoint update (k : str) (f : stats -> stats) (d : dict) : dict :=
  match d with
  | [] => []
  | (k', v) :: rest => if eqb k' k then (k', f v) :: rest else (k', v) :: update k f rest
  end.

(** The body of the loop over [shoe_list].  The totals start at the
    [int] 0; the first [+=] turns the value into the float [0.0 + x].
    [cost * quantity] converts the quantity to a float first. *)
Definition tally (d : dict) (sh : Shoe) : M dict :=
  let d1 := if has_key (country sh) d then d
            else d ++ [(country sh, mkStats zero 0 0)] in
  q <- py_float (VInt (quantity sh)) ;;
  ret (update (country sh)
         (fun st => mkStats (fadd (total_value st) (fmul (cost sh) q))
                            (total_quantity st + quantity sh)
                            (products st + 1))
         d1).

Fixpoint tally_all (d : dict) (l : list Shoe) : M dict :=
  match l with
  | [] => ret d
  | sh :: rest => d' <- tally d sh ;; tally_all d' rest
  end.

(** A row of the table: country, products, total quantity, and the total
    value as the text [f"R{total_value:.2f}"]. *)
Record row := mkRow {
  row_country : str;
  row_products : Z;
  row_quantity : Z;
  row_value : str
}.

Definition row_of (entry : str * stats) : row :=
  mkRow (fst entry) (products (snd entry)) (total_quantity (snd entry))
        (money (total_value (snd entry))).

Definition cells (r : row) : list cell :=
  [CStr (row_country r); CInt (row_products r); CInt (row_quantity r); CStr (row_value r)].

(** [key=lambda x: float(x[3][1:])] *)
Definition sort_key (r : row) : M float := py_float (VStr (skipn 1 (row_value r))).

Fixpoint keyed (rows : list row) : M (list (float * row)) :=
  match rows with
  | [] => ret []
  | r :: rest => k <- sort_key r ;; ks <- keyed rest ;; ret ((k, r) :: ks)
  end.

(** [table.sort(key=..., reverse=True)]: a stable sort into descending
    order of the keys.  Each row is put in front of the sorted rest and
    moves right past the rows whose key is strictly larger, so rows with
    equal keys keep their order. *)
Fixpoint insert_desc (x : float * row) (l : list (float * row)) : list (float * row) :=
  match l with
  | [] => [x]
  | y :: rest => if fltb (fst x) (fst y) then y :: insert_desc x rest else x :: l
  end.

Definition sort_desc (l : list (float * row)) : list (float * row) :=
  fold_right insert_desc [] l.

Definition report_headers : list str :=
  [s "Country"; s "Products"; s "Total Quantity"; s "Total Value"].

Definition stock_by_country : M unit :=
  l <- get_shoes ;;
  match l with
  | [] => print (s "No shoes in inventory")
  | _ =>
      country_stats <- tally_all [] l ;;
      let table := map row_of country_stats in
      ks <- keyed table ;;
      let table := map snd (sort_desc ks) in
      print (LF :: s "=== STOCK BY COUNTRY ===") ;;
      emit (Tabulate report_headers (map cells table))
  end.

(* ================================================================== *)
(** * Vocabulary of the properties *)
(* ================================================================== *)

(** The record invariant of the data model: [cost > 0] and [quantity >= 0]. *)
Definition shoe_ok (sh : Shoe) : Prop :=
  fltb zero (cost sh) = true /\ 0 <= quantity sh.

(** Two codes are the same up to letter case. *)
Definition same_code (a b : str) : Prop := upper a = upper b.

(** The code is stored the way [capture_shoes] stores it: upper-cased. *)
Definition code_normal (sh : Shoe) : Prop := upper (code sh) = code sh.

(** [capture_shoes] run [n] times in a row. *)
Fixpoint times (n : nat) (m : M unit) : M unit :=
  match n with
  | O => ret tt
  | S k => m ;; times k m
  end.

(** A character that neither separates fields nor ends a line. *)
Definition plain (c : ascii) : bool :=
  if ascii_dec c comma then false
  else if ascii_dec c LF then false
  else if ascii_dec c CR then false
  else true.

Definition starts_with_space (x : str) : bool :=
  match x with
  | c :: _ => isspace c
  | [] => false
  end.

(** A record that survives being written as one line and read back: no
    field holds a comma or a line break, the country has no leading
    white space (the line is stripped as a whole), and the cost read
    from its written form is the cost itself. *)
Definition writable (sh : Shoe) : Prop :=
  forallb plain (country sh) = true /\
  forallb plain (code sh) = true /\
  forallb plain (product sh) = true /\
  starts_with_space (country sh) = false /\
  float_of_str (repr_float (cost sh)) = Some (cost sh).

(** The record a line of the file stands for, when it has five fields
    and numeric cost and quantity. *)
Definition record_of_line (line : str) : option Shoe :=
  match split comma (strip line) with
  | [d0; d1; d2; d3; d4] =>
      match float_of_str d3, int_of_str d4 with
      | Some c, Some q => Some (mkShoe d0 d1 d2 c q)
      | _, _ => None
      end
  | _ => None
  end.

Definition five_fields (line : str) : bool :=
  (length (split comma (strip line)) =? 5)%nat.

(** A line the loader takes or skips without raising: it has five
    fields with numeric cost and quantity, or another number of fields. *)
Definition loadable (line : str) : Prop :=
  five_fields line = true -> record_of_line line <> None.

Fixpoint records_of (ls : list str) : list Shoe :=
  match ls with
  | [] => []
  | line :: rest =>
      match record_of_line line with
      | Some sh => sh :: records_of rest
      | None => records_of rest
      end
  end.

(** What one line does to the loader: it is skipped, it appends a
    record, or it raises. *)
Inductive line_effect :=
| Skipped
| Appended (sh : Shoe)
| Failed (e : exn).

Definition effect_of_line (line : str) : line_effect :=
  match split comma (strip line) with
  | [d0; d1; d2; d3; d4] =>
      match float_of_str d3 with
      | None => Failed (bad_float d3)
      | Some c =>
          match int_of_str d4 with
          | None => Failed (bad_int d4)
          | Some q => Appended (mkShoe d0 d1 d2 c q)
          end
      end
  | _ => Skipped
  end.

(** The store the loop over the lines builds from [acc], and the
    exception that stopped it, if any. *)
Fixpoint load_pure (ls : list str) (acc : list Shoe) : list Shoe * option exn :=
  match ls with
  | [] => (acc, None)
  | line :: rest =>
      match effect_of_line line with
      | Skipped => load_pure rest acc
      | Appended sh => load_pure rest (acc ++ [sh])
      | Failed e => (acc, Some e)
      end
  end.

(** What a load leaves in the store, as a function of the file alone. *)
Definition loaded_from (file : option str) : list Shoe :=
  shoe_list (world_of (read_shoes_data (mkWorld [] file [] []))).

Definition with_shoes (l : list Shoe) (w : world) : world :=
  mkWorld l (inventory_txt w) (stdin w) (stdout w).

(** [a] occurs before [b] in [l]. *)
Definition before {A} (a b : A) (l : list A) : Prop :=
  exists l1 l2 l3, l = l1 ++ a :: l2 ++ b :: l3.

(** ** The report by country, in the words of the specification *)

(** The distinct countries, in the order of their first appearance. *)
Fixpoint first_seen (l : list str) : list str :=
  match l with
  | [] => []
  | x :: rest => x :: filter (fun y => negb (eqb x y)) (first_seen rest)
  end.

Definition group (c : str) (l : list Shoe) : list Shoe :=
  filter (fun sh => eqb (country sh) c) l.

(** [cost * quantity] as a float ([None]: the quantity is too large). *)
Definition value_of (sh : Shoe) : option float :=
  option_map (fmul (cost sh)) (float_of_int (quantity sh)).

Definition or_nan (x : option float) : float :=
  match x with Some f => f | None => S754_nan end.

(** The sum of [cost * quantity] over a group, added up in store order. *)
Definition sum_values (g : list Shoe) : float :=
  fold_left (fun acc sh => fadd acc (or_nan (value_of sh))) g zero.

Definition sum_quantities (g : list Shoe) : Z :=
  fold_left (fun acc sh => acc + quantity sh) g 0.

Definition group_row (l : list Shoe) (c : str) : row :=
  let g := group c l in
  mkRow c (Z.of_nat (length g)) (sum_quantities g) (money (sum_values g)).

Definition by_country (l : list Shoe) : list row :=
  map (group_row l) (first_seen (map country l)).

(** The total a row displays, read as a number: the total value rounded
    to two decimals. *)
Definition displayed (r : row) : float :=
  or_nan (float_of_str (skipn 1 (row_value r))).

(** ** Sample data *)

Definition fl (x : string) : float := or_nan (float_of_str (s x)).

Definition shoe (c k p : string) (co : string) (q : Z) : Shoe :=
  mkShoe (s c) (s k) (s p) (fl co) q.

(** A file: the header and the given lines. *)
Definition file_of (ls : list string) : str :=
  header ++ concat (map (fun l => LF :: s l) ls).

Definition console (ins : list string) : list str := map s ins.

(** The store of the specification's selection example: quantities 5, 2, 2, 9. *)
Definition four_shoes : list Shoe :=
  [shoe "ZA" "AIR001" "Air Max" "150.0" 5;
   shoe "US" "JRD002" "Jordan" "200.0" 2;
   shoe "UK" "RUN003" "Runner" "80.0" 2;
   shoe "ZA" "ZOM004" "Zoom" "120.5" 9].

(** The store of the specification's aggregation example. *)
Definition three_shoes : list Shoe :=
  [shoe "ZA" "A1" "Alpha" "10" 2;
   shoe "ZA" "B2" "Beta" "5" 1;
   shoe "US" "C3" "Gamma" "100" 1].

(** Two countries whose totals differ by less than a cent. *)
Definition close_shoes : list Shoe :=
  [shoe "A" "A1" "Alpha" "1.001" 1;
   shoe "B" "B2" "Beta" "1.004" 1].

(** A record whose quantity is beyond the range of binary64. *)
Definition huge_shoes : list Shoe :=
  [shoe "ZA" "A1" "Alpha" "10" (10 ^ 400)].

(** A file whose second line has four fields. *)
Definition mixed_file : str :=
  file_of ["ZA,AIR001,Air Max,150.0,10"; "UK,RUN003,Runner,80.0"; "US,JRD002,Jordan,200.0,3"]%string.

(** A file whose second record has a cost that is not a number. *)
Definition half_bad_file : str :=
  file_of ["ZA,AIR001,Air Max,150.0,10"; "US,JRD002,Jordan,abc,3"]%string.

(** The store of the selection example with its file, and what the user
    will type. *)
Definition restock_world (ins : list string) : world :=
  mkWorld four_shoes (Some (file_text four_shoes)) (console ins) [].

(** The code of the record is some typed text in upper case. *)
Definition code_normal_input (sh : Shoe) : Prop :=
  exists typed, code sh = upper typed.

(** A file whose record has a negative cost and a negative quantity. *)
Definition negative_file : str :=
  file_of ["ZA,AIR001,Air Max,-5.0,-3"]%string.

(** A file whose record has a code in lower case. *)
Definition lowercase_file : str :=
  file_of ["ZA,air001,Air Max,150.0,10"]%string.

(** The world in which [search_shoe] has read the code [typed]. *)
Definition asked_code (w : world) (rest : list str) : world :=
  mkWorld (shoe_list w) (inventory_txt w) rest
          (stdout w ++ [Prompt (s "Enter shoe code: ")]).

(** ** The order of binary64 numbers *)

(** A rank that orders the numbers as [fltb] does: the sign class, then
    the exponent, then the mantissa. *)
Definition rank (x : float) : Z * Z * Z :=
  match x with
  | S754_nan => (0, 0, 0)
  | S754_zero _ => (0, 0, 0)
  | S754_infinity true => (-2, 0, 0)
  | S754_infinity false => (2, 0, 0)
  | S754_finite true m e => (-1, - e, - Zpos m)
  | S754_finite false m e => (1, e, Zpos m)
  end.

Definition lex_lt (a b : Z * Z * Z) : Prop :=
  let '(a1, a2, a3) := a in
  let '(b1, b2, b3) := b in
  a1 < b1 \/ (a1 = b1 /\ (a2 < b2 \/ (a2 = b2 /\ a3 < b3))).

(** [a] is not displayed smaller than [b]. *)
Definition not_below (a b : row) : Prop :=
  fltb (displayed a) (displayed b) = false.

(** The rows with their sort keys. *)
Definition with_keys (l : list row) : list (float * row) :=
  map (fun r => (displayed r, r)) l.

(** The totals of a group, and the dict the loop of the report has built
    once it has gone through the records [l]. *)
Definition stats_of (g : list Shoe) : stats :=
  mkStats (sum_values g) (sum_quantities g) (Z.of_nat (length g)).

Definition dict_of (l : list Shoe) : dict :=
  map (fun c => (c, stats_of (group c l))) (first_seen (map country l)).

(** The quantity converts to a float. *)
Definition fits_float (sh : Shoe) : Prop := float_of_int (quantity sh) <> None.

(** The console after the report has been printed with the rows [rows]. *)
Definition reported (w : world) (rows : list row) : world :=
  mkWorld (shoe_list w) (inventory_txt w) (stdin w)
          (stdout w ++ [Print (LF :: s "=== STOCK BY COUNTRY ===");
                        Tabulate report_headers (map cells rows)]).

(** A text all of whose characters are plain. *)
Definition all_plain (x : str) : Prop := Forall (fun c => plain c = true) x.

(** A text without line breaks. *)
Definition one_line (x : str) : Prop := Forall (fun c => c <> LF /\ c <> CR) x.

(** A world whose store is empty and whose file is fresh: the header alone. *)
Definition fresh (w : world) : Prop :=
  shoe_list w = [] /\ inventory_txt w = Some header.

(** The user adds a record with a comma in the country. *)
Definition comma_world : world :=
  mkWorld [] (Some header) (console ["Z,A"; "air001"; "Air Max"; "150.00"; "10"]%string) [].

(** The user adds a record whose country starts with a space. *)
Definition space_world : world :=
  mkWorld [] (Some header) (console [" ZA"; "air001"; "Air Max"; "150.00"; "10"]%string) [].

(** The user adds two records, with some entries refused on the way. *)
Definition two_adds_world : world :=
  mkWorld [] (Some header)
    (console ["ZA"; "air001"; "Air Max"; "150.00"; "10";
              "US"; "jrd002"; "Jordan"; "0"; "0.1"; "-1"; "3"]%string) [].

(** ** Selection *)

(** No record of [l] is better than [b], and [b] is better than every
    record of [l], for a comparison [better] of quantities. *)
Definition unbeaten (better : Z -> Z -> bool) (b : Shoe) (l : list Shoe) : Prop :=
  Forall (fun sh => better (quantity sh) (quantity b) = false) l.

Definition beats (better : Z -> Z -> bool) (b : Shoe) (l : list Shoe) : Prop :=
  Forall (fun sh => better (quantity b) (quantity sh) = true) l.

(** The key of [a] is not below the key of [b]. *)
Definition key_not_below (a b : float * row) : Prop :=
  fltb (fst a) (fst b) = false.

(** What [re_stock] has shown by the time it asks for the quantity. *)
Definition restock_shown (lowest : Shoe) : list event :=
  [Print (LF :: s "Shoe needing restock:");
   Print (s "Country: " ++ country lowest);
   Print (s "Code: " ++ code lowest);
   Print (s "Product: " ++ product lowest);
   Print (s "Cost: " ++ money (cost lowest));
   Print (s "Current Quantity: " ++ str_of_int (quantity lowest));
   Prompt (s "Restock? (yes/no): ");
   Prompt (s "Quantity to add: ")].

(** The line [capture_shoes] appends to the file for a record. *)
Definition line_of (sh : Shoe) : str := LF :: Shoe_str sh.

Definition file_or_empty (f : option str) : str :=
  match f with Some t => t | None => [] end.

(* ================================================================== *)
(** * The other operations of the menu *)
(* ================================================================== *)

Definition view_headers : list str :=
  [s "Country"; s "Code"; s "Product"; s "Cost"; s "Quantity"].

(** A row of the table of [view_all]. *)
Definition view_row (sh : Shoe) : list cell :=
  [CStr (country sh); CStr (code sh); CStr (product sh);
   CStr (money (cost sh)); CInt (quantity sh)].

Definition view_all : M unit :=
  l <- get_shoes ;;
  match l with
  | [] => print (s "No shoes in inventory")
  | _ =>
      let table := map view_row l in
      print (LF :: s "=== Current Inventory ===") ;;
      emit (Tabulate view_headers table)
  end.

(** [s.cost * s.quantity]: the quantity is converted to a float first. *)
Definition item_value (sh : Shoe) : M float :=
  q <- py_float (VInt (quantity sh)) ;;
  ret (fmul (cost sh) q).

Definition value_headers : list str :=
  [s "Product"; s "Code"; s "Total Value"].

Definition value_row (sh : Shoe) (v : float) : list cell :=
  [CStr (product sh); CStr (code sh); CStr (money v)].

(** The list comprehension of [value_per_item]. *)
Fixpoint value_rows (l : list Shoe) : M (list (list cell)) :=
  match l with
  | [] => ret []
  | sh :: rest =>
      v <- item_value sh ;;
      rows <- value_rows rest ;;
      ret (value_row sh v :: rows)
  end.

Definition value_per_item : M unit :=
  l <- get_shoes ;;
  match l with
  | [] => print (s "No shoes in inventory")
  | _ =>
      table <- value_rows l ;;
      print (LF :: s "=== Product Values ===") ;;
      emit (Tabulate value_headers table)
  end.

(** The values the generator of [total_warehouse_value] yields. *)
Fixpoint item_values (l : list Shoe) : M (list float) :=
  match l with
  | [] => ret []
  | sh :: rest =>
      v <- item_value sh ;;
      vs <- item_values rest ;;
      ret (v :: vs)
  end.

Section Interpreter.

(** [sum] over the floats of a generator that is not empty.  How the
    interpreter adds them up depends on its version (one addition after
    the other up to Python 3.11, a compensated summation from 3.12), so
    the function is a parameter of the operations that use it. *)
Variable py_sum : list float -> float.

Definition total_warehouse_value : M unit :=
  l <- get_shoes ;;
  match l with
  | [] => print (s "No shoes in inventory")
  | _ =>
      values <- item_values l ;;
      let total := py_sum values in
      print (LF :: s "=== TOTAL WAREHOUSE VALUE ===") ;;
      print (money total)
  end.

(** The nine lines of the menu and its title. *)
Definition menu : M unit :=
  print (LF :: s "===== Nike Warehouse Management =====") ;;
  print (s "1. Add new shoe") ;;
  print (s "2. View all shoes") ;;
  print (s "3. Restock shoes") ;;
  print (s "4. Search shoe") ;;
  print (s "5. Product values") ;;
  print (s "6. Highest quantity (mark for sale)") ;;
  print (s "7. Stock by country") ;;
  print (s "8. Total warehouse value") ;;
  print (s "9. Exit").

Definition farewell : str := LF :: s "Thank you for using Nike Warehouse Management!".

(** The [if]/[elif] chain of [main]; the result tells whether the loop
    is left ([break]). *)
Definition dispatch (choice : str) : M bool :=
  if eqb choice (s "1") then capture_shoes ;; ret false
  else if eqb choice (s "2") then view_all ;; ret false
  else if eqb choice (s "3") then re_stock ;; ret false
  else if eqb choice (s "4") then search_shoe ;; ret false
  else if eqb choice (s "5") then value_per_item ;; ret false
  else if eqb choice (s "6") then highest_qty ;; ret false
  else if eqb choice (s "7") then stock_by_country ;; ret false
  else if eqb choice (s "8") then total_warehouse_value ;; ret false
  else if eqb choice (s "9") then print farewell ;; ret true
  else print (s "Invalid choice, please try again") ;; ret false.

(** One pass through the body of [while True]. *)
Definition menu_round : M bool :=
  menu ;;
  typed <- input (LF :: s "Enter choice (1-9): ") ;;
  dispatch (strip typed).

(** The loop of [main], for at most [fuel] rounds: [true] when the loop
    was left by [break], [false] when the rounds ran out. *)
Fixpoint main_loop (fuel : nat) : M bool :=
  match fuel with
  | O => ret false
  | S f =>
      stop <- menu_round ;;
      if stop then ret true else main_loop f
  end.

(** [main()]: every round reads at least one line, so one round more
    than there are lines to read is enough. *)
Definition main : M bool :=
  main_load ;;
  fun w => main_loop (S (length (stdin w))) w.

End Interpreter.

(** [sum] as Python up to 3.11 computes it: one addition after the
    other, from the [int] 0. *)
Definition sum_left (values : list float) : float :=
  fold_left fadd values zero.

(** ** How a computation leaves the world *)

(** Every run of [m] leaves the world related by [R] to the one it
    started in, whether it returns or raises. *)
Definition respects {A} (R : world -> world -> Prop) (m : M A) : Prop :=
  forall w, R w (world_of (m w)).

(** The store and the file are as they were. *)
Definition same_data (w w' : world) : Prop :=
  shoe_list w' = shoe_list w /\ inventory_txt w' = inventory_txt w.

(** Lines were read from the front of the input only, and the console
    shows what it showed, and more. *)
Definition io_after (w w' : world) : Prop :=
  (exists used, stdin w = used ++ stdin w') /\
  (exists shown, stdout w' = stdout w ++ shown).

(** Whenever [m] raises, the exception and the world it leaves satisfy [P]. *)
Definition raises_only {A} (P : exn -> world -> Prop) (m : M A) : Prop :=
  forall w e w', m w = Raise e w' -> P e w'.

Definition overflow : exn :=
  mkExn OverflowError (s "int too large to convert to float").

(** The two ways an exception leaves [main]: the input has run out, or
    a report met a quantity that does not convert to a float. *)
Definition fatal (e : exn) (w : world) : Prop :=
  (e = end_of_input /\ stdin w = []) \/
  (e = overflow /\ ~ Forall fits_float (shoe_list w)).

(** The same, or an exception of a kind that [catches] takes. *)
Definition fatal_or (catches : exn_kind -> bool) (e : exn) (w : world) : Prop :=
  catches (kind e) = true \/ fatal e w.

(** The file is the written form of the store. *)
Definition synced (w : world) : Prop :=
  inventory_txt w = Some (file_text (shoe_list w)).

Definition keeps (P : world -> Prop) (w w' : world) : Prop := P w -> P w'.

Definition valid_store (w : world) : Prop := Forall shoe_ok (shoe_list w).

(** Only the console differs: the lines still to be read and what is shown. *)
Definition console_only (R : world -> world -> Prop) : Prop :=
  forall w ins out, R w (mkWorld (shoe_list w) (inventory_txt w) ins out).

(** The sum of a weight over records. *)
Definition weigh (g : Shoe -> Z) (l : list Shoe) : Z :=
  fold_right (fun sh acc => g sh + acc) 0 l.

Definition sum_rows (g : row -> Z) (rows : list row) : Z :=
  fold_right (fun r acc => g r + acc) 0 rows.

(** What a round of the menu has shown by the time the choice is read. *)
Definition menu_shown : list event :=
  [Print (LF :: s "===== Nike Warehouse Management =====");
   Print (s "1. Add new shoe");
   Print (s "2. View all shoes");
   Print (s "3. Restock shoes");
   Print (s "4. Search shoe");
   Print (s "5. Product values");
   Print (s "6. Highest quantity (mark for sale)");
   Print (s "7. Stock by country");
   Print (s "8. Total warehouse value");
   Print (s "9. Exit");
   Prompt (LF :: s "Enter choice (1-9): ")].

(** The world in which the choice has been read. *)
Definition chosen (w : world) (rest : list str) : world :=
  mkWorld (shoe_list w) (inventory_txt w) rest (stdout w ++ menu_shown).

(** An entry a prompt loop refuses. *)
Definition refused {A} (check : str -> A + str) (x : str) : Prop :=
  exists complaint, check x = inr complaint.

(** The world with one more line shown. *)
Definition printed (w : world) (x : str) : world :=
  mkWorld (shoe_list w) (inventory_txt w) (stdin w) (stdout w ++ [Print x]).

(** A store the reports of values cannot convert, with a file, and the
    choices the user makes. *)
Definition huge_world (ins : list string) : world :=
  mkWorld huge_shoes (Some (file_text huge_shoes)) (console ins) [].

(** The file is missing, or it is the written form of writable records. *)
Definition written_by_script (file : option str) : Prop :=
  file = None \/ exists l, Forall writable l /\ file = Some (file_text l).

(** What [re_stock] has shown by the time the answer is read. *)
Definition restock_asked (lowest : Shoe) : list event :=
  [Print (LF :: s "Shoe needing restock:");
   Print (s "Country: " ++ country lowest);
   Print (s "Code: " ++ code lowest);
   Print (s "Product: " ++ product lowest);
   Print (s "Cost: " ++ money (cost lowest));
   Print (s "Current Quantity: " ++ str_of_int (quantity lowest));
   Prompt (s "Restock? (yes/no): ")].

(** The computation returns. *)
Definition returns {A} (r : result A) : Prop := exists a w', r = Return a w'.

(** A world with an empty store. *)
Definition empty_world : world := mkWorld [] (Some header) (console ["x"]%string) [].

(** The user adds a record; a cost of zero and a negative quantity are
    refused on the way, and one more line is left to read. *)
Definition refusals_world : world :=
  mkWorld [] (Some header)
    (console ["US"; "jrd002"; "Jordan"; "0"; "0.1"; "-1"; "3"; "Jrd002"]%string) [].

(** A file whose first line is a record instead of the header. *)
Definition headless_file : str :=
  s "ZA,AIR001,Air Max,150.0,10" ++ LF :: s "US,JRD002,Jordan,200.0,3".

Definition headed_file : str := file_of ["US,JRD002,Jordan,200.0,3"]%string.

(** The line [main] prints after a load that succeeded. *)
Definition loaded_message (n : nat) : str :=
  LF :: s "Loaded " ++ str_of_int (Z.of_nat n) ++ s " shoes from inventory".

(** [b] is the record [a] with a quantity that is not smaller. *)
Definition raised (a b : Shoe) : Prop :=
  country b = country a /\ code b = code a /\ product b = product a /\
  cost b = cost a /\ quantity a <= quantity b.

(** The store [l'] holds the records of [l] at their positions, with
    quantities that are not smaller, and then the records added since. *)
Definition extends (l l' : list Shoe) : Prop :=
  exists kept added, l' = kept ++ added /\ Forall2 raised l kept.

Definition grows (w w' : world) : Prop := extends (shoe_list w) (shoe_list w').

(** The nine choices of the menu. *)
Definition choices : list str :=
  [s "1"; s "2"; s "3"; s "4"; s "5"; s "6"; s "7"; s "8"; s "9"].

(** A store with its file, ready for a round of the menu. *)
Definition menu_world (ins : list string) : world :=
  mkWorld four_shoes (Some (file_text four_shoes)) (console ins) [].

(* ================================================================== *)
(** * The loader *)
(* ================================================================== *)

Ltac split_fields line :=
  destruct (split comma (strip line)) as [|?d [|?d [|?d [|?d [|?d [|?d ?r]]]]]].

Lemma load_line_effect (line : str) (w : world) :
  load_line line w =
  match effect_of_line line with
  | Skipped => Return tt w
  | Appended sh => Return tt (with_shoes (shoe_list w ++ [sh]) w)
  | Failed e => Raise e w
  end.
Proof.
  destruct w as [l f i o].
  unfold load_line, effect_of_line.
  split_fields line; try reflexivity.
  unfold Shoe_init, bind, py_float, py_int.
  destruct (float_of_str d2); [|reflexivity].
  destruct (int_of_str d3); reflexivity.
Qed.

Lemma for_lines_pure (ls : list str) (w : world) :
  for_lines ls w =
  match load_pure ls (shoe_list w) with
  | (l, None) => Return tt (with_shoes l w)
  | (l, Some e) => Raise e (with_shoes l w)
  end.
Proof.
  revert w; induction ls as [|line rest IH]; intros [l f i o].
  - reflexivity.
  - cbn [for_lines load_pure]. unfold bind. rewrite load_line_effect.
    destruct (effect_of_line line); cbn; try rewrite IH; reflexivity.
Qed.

Lemma load_pure_app (a b : list str) (acc : list Shoe) :
  load_pure (a ++ b) acc =
  match load_pure a acc with
  | (l, None) => load_pure b l
  | (l, Some e) => (l, Some e)
  end.
Proof.
  revert acc; induction a as [|line rest IH]; intros acc; cbn.
  - reflexivity.
  - destruct (effect_of_line line); auto.
Qed.

(** The whole of [read_shoes_data], case by case. *)
Lemma read_shoes_data_cases (w : world) :
  read_shoes_data w =
  match inventory_txt w with
  | None =>
      Return false (mkWorld [] (Some header) (stdin w)
                      (stdout w ++ [Print (s "Created new inventory file")]))
  | Some text =>
      match lines_of text with
      | [] => Return false (mkWorld [] (Some text) (stdin w)
                              (stdout w ++ [Print (s "Error loading inventory: ")]))
      | _ :: body =>
          match load_pure body [] with
          | (l, None) => Return true (mkWorld l (Some text) (stdin w) (stdout w))
          | (l, Some e) =>
              Return false (mkWorld l (Some text) (stdin w)
                              (stdout w ++ [Print (s "Error loading inventory: " ++ message e)]))
          end
      end
  end.
Proof.
  destruct w as [l [text|] i o]; cbn; [|reflexivity].
  unfold read_shoes_data, bind, try_except, set_shoes, get_file, read_lines. cbn.
  destruct (lines_of text) as [|hd body]; [reflexivity|].
  rewrite for_lines_pure. cbn.
  destruct (load_pure body []) as [l' [e|]]; reflexivity.
Qed.

Lemma effect_skipped (line : str) :
  length (split comma (strip line)) <> 5%nat -> effect_of_line line = Skipped.
Proof.
  unfold effect_of_line. split_fields line; cbn; intros H; try reflexivity.
  now elim H.
Qed.

Lemma loadable_effect (line : str) :
  loadable line ->
  match record_of_line line with
  | Some sh => effect_of_line line = Appended sh
  | None => effect_of_line line = Skipped
  end.
Proof.
  unfold loadable, five_fields, record_of_line, effect_of_line.
  split_fields line; cbn; intros H; try reflexivity.
  destruct (float_of_str d2); [destruct (int_of_str d3)|]; try reflexivity;
    now elim H.
Qed.

Lemma load_pure_loadable (ls : list str) (acc : list Shoe) :
  Forall loadable ls -> load_pure ls acc = (acc ++ records_of ls, None).
Proof.
  intros H; revert acc; induction H as [|line rest Hl _ IH]; intros acc; cbn.
  - now rewrite app_nil_r.
  - pose proof (loadable_effect Hl) as E.
    destruct (record_of_line line) as [sh|]; rewrite E, IH; [|reflexivity].
    now rewrite <- app_assoc.
Qed.

Lemma records_of_app (a b : list str) :
  records_of (a ++ b) = records_of a ++ records_of b.
Proof.
  induction a as [|line rest IH]; cbn; [reflexivity|].
  destruct (record_of_line line); cbn; now rewrite IH.
Qed.

Lemma load_pure_skip (pre post : list str) (bad : str) (acc : list Shoe) :
  effect_of_line bad = Skipped ->
  load_pure (pre ++ bad :: post) acc = load_pure (pre ++ post) acc.
Proof.
  intros E. rewrite !load_pure_app. cbn. now rewrite E.
Qed.

(** C9: a line of the file that does not split into exactly five fields
    is skipped on its own: the loop over the lines does what it does
    without that line, and when the other lines are loadable the store
    ends up holding the records of the lines before it followed by the
    records of the lines after it. *)
Theorem wrong_field_count_is_skipped
  (w : world) (text hd : str) (pre post : list str) (bad : str) :
  inventory_txt w = Some text ->
  lines_of text = hd :: pre ++ bad :: post ->
  length (split comma (strip bad)) <> 5%nat ->
  (forall w0, for_lines (pre ++ bad :: post) w0 = for_lines (pre ++ post) w0) /\
  (Forall loadable (pre ++ post) ->
   read_shoes_data w =
   Return true (mkWorld (records_of pre ++ records_of post) (Some text) (stdin w) (stdout w))).
Proof.
  intros Hf Hl Hbad. apply effect_skipped in Hbad. split.
  - intros w0. rewrite !for_lines_pure. now rewrite load_pure_skip.
  - intros Hok. rewrite read_shoes_data_cases, Hf, Hl.
    rewrite load_pure_skip by assumption.
    rewrite load_pure_loadable by assumption.
    now rewrite records_of_app.
Qed.


Lemma wrong_field_count_is_skipped_witness :
  read_shoes_data (mkWorld [] (Some mixed_file) [] []) =
  Return true
    (mkWorld [shoe "ZA" "AIR001" "Air Max" "150.0" 10; shoe "US" "JRD002" "Jordan" "200.0" 3]
       (Some mixed_file) [] []).
Proof.
  refine (proj2 (@wrong_field_count_is_skipped
                   (mkWorld [] (Some mixed_file) [] []) mixed_file header
                   [s "ZA,AIR001,Air Max,150.0,10"] [s "US,JRD002,Jordan,200.0,3"]
                   (s "UK,RUN003,Runner,80.0") eq_refl _ _) _).
  - vm_compute; reflexivity.
  - vm_compute; discriminate.
  - repeat constructor; unfold loadable; vm_compute; discriminate.
Defined.


Lemma effect_failed (line : str) :
  five_fields line = true -> record_of_line line = None ->
  exists e, effect_of_line line = Failed e /\ kind e = ValueError.
Proof.
  unfold five_fields, record_of_line, effect_of_line.
  split_fields line; cbn; try discriminate. intros _.
  destruct (float_of_str d2); [destruct (int_of_str d3)|]; try discriminate;
    intros _; now eexists.
Qed.

(** A line with five fields and a cost or quantity that is not a number
    stops the load: the function returns [False], and the store holds
    the records of the lines before that line. *)
Lemma load_stops_at_bad_number
  (w : world) (text hd : str) (pre post : list str) (bad : str) :
  inventory_txt w = Some text ->
  lines_of text = hd :: pre ++ bad :: post ->
  Forall loadable pre ->
  five_fields bad = true -> record_of_line bad = None ->
  exists w', read_shoes_data w = Return false w' /\ shoe_list w' = records_of pre.
Proof.
  intros Hf Hl Hpre H5 Hbad.
  destruct (effect_failed _ H5 Hbad) as (e & He & _).
  rewrite read_shoes_data_cases, Hf, Hl, load_pure_app.
  rewrite load_pure_loadable by assumption. cbn [load_pure app]. rewrite He.
  now eexists.
Qed.

(** C1: a file whose second record has a cost that is not a number.  The
    load stops at that line and reports failure, [main] announces an
    empty inventory, and the record of the line before it is in the
    store. *)
Theorem load_keeps_records_before_bad_number :
  main_load (mkWorld [] (Some half_bad_file) [] []) =
  Return tt
    (mkWorld [shoe "ZA" "AIR001" "Air Max" "150.0" 10] (Some half_bad_file) []
       [Print (s "Error loading inventory: could not convert string to float: 'abc'");
        Print (LF :: s "Starting with empty inventory")]).
Proof. vm_compute. reflexivity. Qed.

Lemma read_shoes_data_returns (w : world) :
  exists ok w', read_shoes_data w = Return ok w' /\
                shoe_list w' = loaded_from (inventory_txt w) /\
                inventory_txt w' = Some (match inventory_txt w with
                                         | Some text => text
                                         | None => header
                                         end).
Proof.
  unfold loaded_from. rewrite !read_shoes_data_cases. cbn.
  destruct (inventory_txt w) as [text|]; [|now eexists _, _].
  destruct (lines_of text) as [|hd body]; [now eexists _, _|].
  destruct (load_pure body []) as [l [e|]]; now eexists _, _.
Qed.

(** C10: the load empties the store before it reads, so the store it
    leaves depends on the file alone: the store before the load plays no
    part, and a second load in a row leaves the store of the first. *)
Theorem load_depends_on_file_only (w : world) (l : list Shoe) :
  read_shoes_data (with_shoes l w) = read_shoes_data w /\
  shoe_list (world_of (read_shoes_data w)) = loaded_from (inventory_txt w) /\
  shoe_list (world_of ((read_shoes_data ;; read_shoes_data) w)) =
  shoe_list (world_of (read_shoes_data w)).
Proof.
  split; [reflexivity|].
  destruct (read_shoes_data_returns w) as (ok & w' & E & Hl & Hf).
  split.
  - now rewrite E.
  - unfold bind. rewrite E.
    destruct (read_shoes_data_returns w') as (ok2 & w2 & E2 & Hl2 & _).
    rewrite E2. cbn [world_of]. rewrite Hl2, Hl, Hf.
    destruct (inventory_txt w); reflexivity.
Qed.

(* ================================================================== *)
(** * Selection of the lowest and the highest stock *)
(* ================================================================== *)

Section Selection.

Variable better : Z -> Z -> bool.
Hypothesis better_irrefl : forall x, better x x = false.
Hypothesis better_left :
  forall x k y, better x k = true -> better y k = false -> better y x = false.
Hypothesis better_right :
  forall x k y, better x k = true -> better y k = false -> better x y = true.

Lemma scan_best_spec (l : list Shoe) :
  forall (p : list Shoe) (bi : nat) (bs : Shoe),
    nth_error p bi = Some bs ->
    unbeaten better bs p ->
    beats better bs (firstn bi p) ->
    exists ri rs,
      scan_best better (bi, bs) (length p) l = (ri, rs) /\
      nth_error (p ++ l) ri = Some rs /\
      unbeaten better rs (p ++ l) /\
      beats better rs (firstn ri (p ++ l)).
Proof.
  induction l as [|x rest IH]; intros p bi bs Hnth Hun Hbt.
  - exists bi, bs. rewrite app_nil_r. now cbn.
  - assert (Hlt : (bi < length p)%nat) by (apply nth_error_Some; congruence).
    cbn [scan_best snd].
    replace (p ++ x :: rest) with ((p ++ [x]) ++ rest) by now rewrite <- app_assoc.
    replace (S (length p)) with (length (p ++ [x])) by (rewrite length_app; cbn; lia).
    destruct (better (quantity x) (quantity bs)) eqn:Hb.
    + apply IH.
      * rewrite nth_error_app2, Nat.sub_diag by lia. reflexivity.
      * apply Forall_app; split.
        -- eapply Forall_impl; [|exact Hun]. cbn. intros y Hy.
           eapply better_left; eassumption.
        -- constructor; [apply better_irrefl|constructor].
      * rewrite firstn_app, Nat.sub_diag, firstn_all, app_nil_r. cbn.
        eapply Forall_impl; [|exact Hun]. cbn. intros y Hy.
        eapply better_right; eassumption.
    + apply IH.
      * rewrite nth_error_app1 by lia. assumption.
      * apply Forall_app; split; [assumption|]. now repeat constructor.
      * rewrite firstn_app.
        replace (bi - length p)%nat with 0%nat by lia.
        now rewrite app_nil_r.
Qed.

Lemma best_of_spec (l : list Shoe) :
  l <> [] ->
  exists i b,
    best_of better l = Some (i, b) /\
    nth_error l i = Some b /\
    unbeaten better b l /\
    beats better b (firstn i l).
Proof.
  destruct l as [|x rest]; [congruence|intros _].
  destruct (@scan_best_spec rest [x] 0%nat x) as (ri & rs & E & H);
    [reflexivity|constructor; [apply better_irrefl|constructor]|constructor|].
  exists ri, rs. cbn in E |- *. now rewrite E.
Qed.

End Selection.

Lemma py_min_spec (l : list Shoe) :
  l <> [] ->
  exists i lo,
    py_min l = Some (i, lo) /\
    nth_error l i = Some lo /\
    Forall (fun sh => quantity lo <= quantity sh) l /\
    Forall (fun sh => quantity lo < quantity sh) (firstn i l).
Proof.
  intros H.
  destruct (@best_of_spec Z.ltb) with (l := l) as (i & b & E & Hn & Hu & Hb);
    try assumption; try (intros; lia).
  exists i, b. repeat split; try assumption.
  - eapply Forall_impl; [|exact Hu]. cbn. intros; lia.
  - eapply Forall_impl; [|exact Hb]. cbn. intros; lia.
Qed.

Lemma py_max_spec (l : list Shoe) :
  l <> [] ->
  exists j hi,
    py_max l = Some (j, hi) /\
    nth_error l j = Some hi /\
    Forall (fun sh => quantity sh <= quantity hi) l /\
    Forall (fun sh => quantity sh < quantity hi) (firstn j l).
Proof.
  intros H.
  destruct (@best_of_spec Z.gtb) with (l := l) as (i & b & E & Hn & Hu & Hb);
    try assumption; try (intros; lia).
  exists i, b. repeat split; try assumption.
  - eapply Forall_impl; [|exact Hu]. cbn. intros; lia.
  - eapply Forall_impl; [|exact Hb]. cbn. intros; lia.
Qed.

(** C5: on a store that is not empty, the restock operation picks a
    record of minimum quantity and the highest-quantity report picks a
    record of maximum quantity, each time the first such record in store
    order: every record before the one picked has a strictly larger
    (strictly smaller) quantity.  The record picked is the one the
    operation shows, and the one a confirmed restock changes. *)
Theorem lowest_and_highest_are_first_extremes (w : world) :
  shoe_list w <> [] ->
  exists i lo j hi,
    py_min (shoe_list w) = Some (i, lo) /\
    nth_error (shoe_list w) i = Some lo /\
    Forall (fun sh => quantity lo <= quantity sh) (shoe_list w) /\
    Forall (fun sh => quantity lo < quantity sh) (firstn i (shoe_list w)) /\
    py_max (shoe_list w) = Some (j, hi) /\
    nth_error (shoe_list w) j = Some hi /\
    Forall (fun sh => quantity sh <= quantity hi) (shoe_list w) /\
    Forall (fun sh => quantity sh < quantity hi) (firstn j (shoe_list w)) /\
    re_stock w =
      (show_lowest lo ;;
       answer <- input (s "Restock? (yes/no): ") ;;
       if eqb (lower answer) (s "yes") then restock_by i (shoe_list w) else ret tt) w /\
    highest_qty w = show_highest hi w.
Proof.
  intros H.
  destruct (py_min_spec H) as (i & lo & E1 & A1 & A2 & A3).
  destruct (py_max_spec H) as (j & hi & E2 & B1 & B2 & B3).
  exists i, lo, j, hi. repeat split; try assumption.
  - unfold re_stock, bind at 1, get_shoes. now rewrite E1.
  - unfold highest_qty, bind, get_shoes. now rewrite E2.
Qed.

Lemma lowest_and_highest_are_first_extremes_witness :
  (exists i lo j hi,
    py_min four_shoes = Some (i, lo) /\
    nth_error four_shoes i = Some lo /\
    Forall (fun sh => quantity lo <= quantity sh) four_shoes /\
    Forall (fun sh => quantity lo < quantity sh) (firstn i four_shoes) /\
    py_max four_shoes = Some (j, hi) /\
    nth_error four_shoes j = Some hi /\
    Forall (fun sh => quantity sh <= quantity hi) four_shoes /\
    Forall (fun sh => quantity sh < quantity hi) (firstn j four_shoes) /\
    re_stock (mkWorld four_shoes (Some header) [] []) =
      (show_lowest lo ;;
       answer <- input (s "Restock? (yes/no): ") ;;
       if eqb (lower answer) (s "yes") then restock_by i four_shoes else ret tt)
        (mkWorld four_shoes (Some header) [] []) /\
    highest_qty (mkWorld four_shoes (Some header) [] []) =
      show_highest hi (mkWorld four_shoes (Some header) [] [])) /\
  py_min four_shoes = Some (1%nat, shoe "US" "JRD002" "Jordan" "200.0" 2) /\
  py_max four_shoes = Some (3%nat, shoe "ZA" "ZOM004" "Zoom" "120.5" 9).
Proof.
  split; [|split; reflexivity].
  apply (@lowest_and_highest_are_first_extremes (mkWorld four_shoes (Some header) [] [])).
  discriminate.
Defined.

(* ================================================================== *)
(** * Restock *)
(* ================================================================== *)

(** Running a computation: the primitives unfold and the projections of
    the world reduce. *)
Ltac run :=
  repeat (unfold bind, ret, raise, print, emit, input, get_shoes, set_shoes,
            get_file, write_file, append_file, try_except, only_ValueError,
            Exception;
          cbn [shoe_list inventory_txt stdin stdout kind message world_of]).

Lemma eqb_eq (a b : str) : eqb a b = true <-> a = b.
Proof.
  unfold eqb. destruct (list_eq_dec ascii_dec a b); split; congruence.
Qed.

Lemma eqb_refl (a : str) : eqb a a = true.
Proof. now apply eqb_eq. Qed.

Lemma eqb_neq (a b : str) : eqb a b = false <-> a <> b.
Proof.
  unfold eqb. destruct (list_eq_dec ascii_dec a b); split; congruence.
Qed.

Lemma add_quantity_at_length (i : nat) (add : Z) (l : list Shoe) :
  length (add_quantity_at i add l) = length l.
Proof.
  revert i; induction l as [|sh rest IH]; intros [|i]; cbn; auto.
Qed.

Lemma add_quantity_at_same (i : nat) (add : Z) (l : list Shoe) (sh : Shoe) :
  nth_error l i = Some sh ->
  nth_error (add_quantity_at i add l) i =
  Some (mkShoe (country sh) (code sh) (product sh) (cost sh) (quantity sh + add)).
Proof.
  revert i; induction l as [|x rest IH]; intros [|i]; cbn; try discriminate.
  - now intros [= ->].
  - apply IH.
Qed.

Lemma add_quantity_at_other (i j : nat) (add : Z) (l : list Shoe) :
  j <> i -> nth_error (add_quantity_at i add l) j = nth_error l j.
Proof.
  revert i j; induction l as [|x rest IH]; intros [|i] [|j] H; cbn; auto.
  congruence.
Qed.

(** A confirmed restock, by what was typed as the quantity. *)
Lemma re_stock_confirmed (w : world) (answer typed : str) (rest : list str)
      (i : nat) (lowest : Shoe) :
  py_min (shoe_list w) = Some (i, lowest) ->
  stdin w = answer :: typed :: rest ->
  lower answer = s "yes" ->
  re_stock w =
  let out := stdout w ++ restock_shown lowest in
  match int_of_str typed with
  | None =>
      Return tt (mkWorld (shoe_list w) (inventory_txt w) rest
                   (out ++ [Print (s "Invalid quantity")]))
  | Some add =>
      if 0 <? add then
        let l' := add_quantity_at i add (shoe_list w) in
        Return tt (mkWorld l' (Some (file_text l')) rest
                     (out ++ [Print (s "Restock successful!")]))
      else
        Return tt (mkWorld (shoe_list w) (inventory_txt w) rest
                     (out ++ [Print (s "Quantity must be positive")]))
  end.
Proof.
  destruct w as [l f ins o]. cbn [shoe_list stdin stdout inventory_txt].
  intros Hmin -> Hyes.
  unfold re_stock, bind at 1, get_shoes. cbn [shoe_list]. rewrite Hmin.
  unfold show_lowest. run. rewrite Hyes, eqb_refl.
  unfold restock_by, py_int. run.
  unfold restock_shown.
  destruct (int_of_str typed) as [add|]; run.
  - destruct (0 <? add); run; rewrite <- !app_assoc; reflexivity.
  - rewrite <- !app_assoc. reflexivity.
Qed.





(* ================================================================== *)
(** * Adding a shoe *)
(* ================================================================== *)

Lemma prompt_until_accepted {A} (prompt : str) (check : str -> A + str)
      (ins : list str) (shown : list event) (a : A) (rest : list str) :
  prompt_until prompt check ins = (shown, Some (a, rest)) ->
  exists x, check x = inl a.
Proof.
  revert shown; induction ins as [|x more IH]; intros shown; cbn.
  - discriminate.
  - destruct (check x) as [a'|complaint] eqn:E.
    + intros [= _ <- _]. now exists x.
    + destruct (prompt_until prompt check more) as [shown' r].
      intros [= _ ->]. now apply (IH shown').
Qed.

Lemma check_cost_positive (x : str) (c : float) :
  check_cost x = inl c -> fltb zero c = true.
Proof.
  unfold check_cost. destruct (float_of_str x) as [f|]; [|discriminate].
  destruct (fltb zero f) eqn:E; [|discriminate]. now intros [= <-].
Qed.

Lemma check_quantity_natural (x : str) (q : Z) :
  check_quantity x = inl q -> 0 <= q.
Proof.
  unfold check_quantity. destruct (int_of_str x) as [n|]; [|discriminate].
  destruct (0 <=? n) eqn:E; [|discriminate]. intros [= <-]. lia.
Qed.

(** [capture_shoes] either runs out of input, leaving the store and the
    file as they were, or appends one record with a positive cost and a
    quantity that is not negative, and its line to the file. *)
Lemma capture_shoes_cases (w : world) :
  (exists w', capture_shoes w = Raise end_of_input w' /\
              shoe_list w' = shoe_list w /\ inventory_txt w' = inventory_txt w) \/
  (exists w' sh, capture_shoes w = Return tt w' /\
                 shoe_list w' = shoe_list w ++ [sh] /\
                 inventory_txt w' = Some (file_or_empty (inventory_txt w) ++ line_of sh) /\
                 shoe_ok sh /\ code_normal_input sh).
Proof.
  destruct w as [l f ins o].
  unfold capture_shoes. run.
  destruct ins as [|country ins]; [left; now eexists|].
  destruct ins as [|typed ins]; run; [left; now eexists|].
  destruct ins as [|product ins]; run; [left; now eexists|].
  unfold ask. run.
  destruct (prompt_until (s "Cost (R): ") check_cost ins) as [shown1 [[c ins1]|]] eqn:E1;
    [|left; now eexists].
  run.
  destruct (prompt_until (s "Quantity: ") check_quantity ins1) as [shown2 [[q ins2]|]] eqn:E2;
    [|left; now eexists].
  unfold Shoe_init, py_float, py_int, append_shoe. run.
  right. eexists _, (mkShoe country (upper typed) product c q).
  split; [reflexivity|]. cbn [shoe_list inventory_txt]. repeat split.
  - destruct (prompt_until_accepted _ _ _ E1) as (x & Hx).
    now apply check_cost_positive in Hx.
  - destruct (prompt_until_accepted _ _ _ E2) as (x & Hx).
    now apply check_quantity_natural in Hx.
  - now exists typed.
Qed.

Lemma add_quantity_at_ok (i : nat) (add : Z) (l : list Shoe) :
  0 < add -> Forall shoe_ok l -> Forall shoe_ok (add_quantity_at i add l).
Proof.
  intros Hadd H; revert i; induction H as [|sh rest [Hc Hq] Hrest IH]; intros [|i]; cbn.
  - constructor.
  - constructor.
  - constructor; [|assumption]. split; cbn; [assumption|lia].
  - constructor; [now split|apply IH].
Qed.

(** The store [re_stock] leaves, however it ends. *)
Lemma re_stock_store (w : world) :
  shoe_list (world_of (re_stock w)) = shoe_list w \/
  exists i lowest add,
    py_min (shoe_list w) = Some (i, lowest) /\ 0 < add /\
    shoe_list (world_of (re_stock w)) = add_quantity_at i add (shoe_list w).
Proof.
  destruct w as [l f ins o].
  unfold re_stock, show_lowest. run.
  destruct (py_min l) as [[i lowest]|] eqn:Hmin; [|now left].
  run.
  destruct ins as [|answer ins]; run; [now left|].
  destruct (eqb (lower answer) (s "yes")); run; [|now left].
  unfold restock_by, py_int. run.
  destruct ins as [|typed ins]; run; [now left|].
  destruct (int_of_str typed) as [add|]; run; [|now left].
  destruct (0 <? add) eqn:Hadd; run; [|now left].
  right. exists i, lowest, add. repeat split. now apply Z.ltb_lt.
Qed.

(** C2, as the code has it: a record that enters the store through the
    add operation has a positive cost and a quantity that is not
    negative, and both the add operation and the restock operation keep
    every record of the store in that state.  (The load takes the numbers
    of the file as they are.) *)
Theorem add_and_restock_keep_records_valid (w : world) :
  Forall shoe_ok (shoe_list w) ->
  Forall shoe_ok (shoe_list (world_of (capture_shoes w))) /\
  Forall shoe_ok (shoe_list (world_of (re_stock w))) /\
  (forall w', capture_shoes w = Return tt w' ->
              exists sh, shoe_list w' = shoe_list w ++ [sh] /\ shoe_ok sh).
Proof.
  intros Hok. repeat split.
  - destruct (capture_shoes_cases w) as [(w' & E & Hl & _)|(w' & sh & E & Hl & _ & Hsh & _)];
      rewrite E; cbn [world_of]; rewrite Hl; [assumption|].
    apply Forall_app; split; [assumption|now constructor].
  - destruct (re_stock_store w) as [E|(i & lowest & add & _ & Hadd & E)]; rewrite E;
      [assumption|now apply add_quantity_at_ok].
  - intros w' E'.
    destruct (capture_shoes_cases w) as [(w1 & E & _)|(w1 & sh & E & Hl & _ & Hsh & _)];
      rewrite E in E'; [discriminate|].
    injection E' as <-. now exists sh.
Qed.

Lemma add_and_restock_keep_records_valid_witness :
  Forall shoe_ok (shoe_list (world_of (capture_shoes (restock_world
     ["ZA"; "new005"; "Pegasus"; "free"; "-2"; "99.5"; "many"; "7"]%string)))) /\
  Forall shoe_ok (shoe_list (world_of (re_stock (restock_world
     ["ZA"; "new005"; "Pegasus"; "free"; "-2"; "99.5"; "many"; "7"]%string)))) /\
  (forall w', capture_shoes (restock_world
     ["ZA"; "new005"; "Pegasus"; "free"; "-2"; "99.5"; "many"; "7"]%string) = Return tt w' ->
              exists sh, shoe_list w' = four_shoes ++ [sh] /\ shoe_ok sh).
Proof.
  apply (@add_and_restock_keep_records_valid (restock_world
     ["ZA"; "new005"; "Pegasus"; "free"; "-2"; "99.5"; "many"; "7"]%string)).
  repeat constructor; vm_compute; congruence.
Defined.

(** C2 as stated fails for the load: the file's record comes into the
    store with its negative cost and its negative quantity. *)
Lemma load_takes_negative_numbers :
  read_shoes_data (mkWorld [] (Some negative_file) [] []) =
  Return true (mkWorld [shoe "ZA" "AIR001" "Air Max" "-5.0" (-3)] (Some negative_file) [] []) /\
  fltb zero (cost (shoe "ZA" "AIR001" "Air Max" "-5.0" (-3))) = false /\
  quantity (shoe "ZA" "AIR001" "Air Max" "-5.0" (-3)) < 0.
Proof. vm_compute. repeat split. Qed.

(* ================================================================== *)
(** * Search *)
(* ================================================================== *)

Lemma upper_char_idem (c : ascii) : upper_char (upper_char c) = upper_char c.
Proof. destruct c as [[] [] [] [] [] [] [] []]; reflexivity. Qed.

Lemma upper_idem (x : str) : upper (upper x) = upper x.
Proof.
  unfold upper. rewrite map_map. apply map_ext. apply upper_char_idem.
Qed.

Lemma find_code_first (typed : str) (l : list Shoe) :
  Forall code_normal l ->
  match find_code (upper typed) l with
  | Some sh =>
      exists pre post,
        l = pre ++ sh :: post /\ same_code (code sh) typed /\
        Forall (fun t => ~ same_code (code t) typed) pre
  | None => Forall (fun t => ~ same_code (code t) typed) l
  end.
Proof.
  induction 1 as [|sh rest Hn _ IH]; cbn; [constructor|].
  destruct (eqb (code sh) (upper typed)) eqn:E.
  - apply eqb_eq in E. exists [], rest. repeat split; [|constructor].
    unfold same_code. now rewrite E, upper_idem.
  - apply eqb_neq in E.
    assert (Hsh : ~ same_code (code sh) typed)
      by (unfold same_code; rewrite Hn; exact E).
    destruct (find_code (upper typed) rest) as [found|].
    + destruct IH as (pre & post & -> & Hs & Hpre).
      exists (sh :: pre), post. repeat split; [assumption|now constructor].
    + now constructor.
Qed.




(* ================================================================== *)
(** * The order of the report *)
(* ================================================================== *)

Lemma fltb_rank (x y : float) :
  x <> S754_nan -> y <> S754_nan ->
  (fltb x y = true <-> lex_lt (rank x) (rank y)).
Proof.
  intros Hx Hy. unfold fltb, SFltb.
  destruct x as [sx|sx| |sx mx ex]; try congruence;
    destruct y as [sy|sy| |sy my ey]; try congruence;
    try destruct sx; try destruct sy; cbn;
    try rewrite Pos.compare_cont_spec;
    try (destruct (Z.compare_spec ex ey);
         [destruct (Pos.compare_spec mx my)| |]; cbn);
    split; intros; try reflexivity; try discriminate; lia.
Qed.

Lemma fltb_asym (x y : float) : fltb x y = true -> fltb y x = false.
Proof.
  intros H.
  assert (Hx : x <> S754_nan) by (intros ->; discriminate).
  assert (Hy : y <> S754_nan) by (intros ->; destruct x; discriminate).
  apply (fltb_rank Hx Hy) in H.
  destruct (fltb y x) eqn:E; [|reflexivity].
  apply (fltb_rank Hy Hx) in E. exfalso.
  unfold lex_lt in *. destruct (rank x) as [[? ?] ?], (rank y) as [[? ?] ?]. lia.
Qed.

Lemma not_fltb_trans (x y z : float) :
  x <> S754_nan -> y <> S754_nan -> z <> S754_nan ->
  fltb x y = false -> fltb y z = false -> fltb x z = false.
Proof.
  intros Hx Hy Hz Hxy Hyz.
  destruct (fltb x z) eqn:E; [|reflexivity].
  apply (fltb_rank Hx Hz) in E.
  assert (A : ~ lex_lt (rank x) (rank y))
    by (intros A; apply (fltb_rank Hx Hy) in A; congruence).
  assert (B : ~ lex_lt (rank y) (rank z))
    by (intros B; apply (fltb_rank Hy Hz) in B; congruence).
  exfalso. unfold lex_lt in *.
  destruct (rank x) as [[? ?] ?], (rank y) as [[? ?] ?], (rank z) as [[? ?] ?]. lia.
Qed.

Lemma before_cons {A} (a b z : A) (rest : list A) :
  before a b (z :: rest) <-> (a = z /\ In b rest) \/ before a b rest.
Proof.
  split.
  - intros ([|z' l1] & l2 & l3 & H); injection H as -> ->.
    + left. split; [reflexivity|]. apply in_elt.
    + right. now exists l1, l2, l3.
  - intros [[-> Hin]|(l1 & l2 & l3 & ->)].
    + apply in_split in Hin. destruct Hin as (l2 & l3 & ->). now exists [], l2, l3.
    + now exists (z :: l1), l2, l3.
Qed.

Lemma before_map {A B} (f : A -> B) (a b : A) (l : list A) :
  before a b l -> before (f a) (f b) (map f l).
Proof.
  intros (l1 & l2 & l3 & ->).
  exists (map f l1), (map f l2), (map f l3).
  now rewrite map_app; cbn; rewrite map_app.
Qed.

Section StableSort.

Lemma insert_desc_perm (x : float * row) (l : list (float * row)) :
  Permutation (insert_desc x l) (x :: l).
Proof.
  induction l as [|y rest IH]; cbn; [reflexivity|].
  destruct (fltb (fst x) (fst y)); [|reflexivity].
  rewrite IH. apply perm_swap.
Qed.

Lemma sort_desc_perm (l : list (float * row)) : Permutation (sort_desc l) l.
Proof.
  induction l as [|x rest IH]; cbn; [reflexivity|].
  rewrite insert_desc_perm. now constructor.
Qed.

Lemma insert_desc_sorted (x : float * row) (l : list (float * row)) :
  fst x <> S754_nan ->
  Forall (fun y => fst y <> S754_nan) l ->
  StronglySorted key_not_below l ->
  StronglySorted key_not_below (insert_desc x l).
Proof.
  intros Hx Hl Hs. induction Hs as [|y rest Hs IH Hy]; cbn.
  - repeat constructor.
  - inversion Hl as [|? ? Hyn Hrn]; subst.
    destruct (fltb (fst x) (fst y)) eqn:E.
    + constructor; [now apply IH|].
      eapply Permutation_Forall; [symmetry; apply insert_desc_perm|].
      constructor; [now apply fltb_asym|assumption].
    + constructor; [now constructor|].
      constructor; [assumption|].
      rewrite Forall_forall in Hy, Hrn |- *. intros z Hz.
      apply not_fltb_trans with (y := fst y); auto.
      now apply Hy.
Qed.

Lemma sort_desc_sorted (l : list (float * row)) :
  Forall (fun y => fst y <> S754_nan) l ->
  StronglySorted key_not_below (sort_desc l).
Proof.
  induction 1 as [|x rest Hx Hr IH]; cbn; [constructor|].
  apply insert_desc_sorted; try assumption.
  eapply Permutation_Forall; [symmetry; apply sort_desc_perm|assumption].
Qed.

(** A row goes in front of the rows it does not pass. *)
Lemma insert_desc_before (x y : float * row) (l : list (float * row)) :
  In y l -> fltb (fst x) (fst y) = false -> before x y (insert_desc x l).
Proof.
  induction l as [|z rest IH]; cbn [In insert_desc]; [contradiction|].
  intros Hin Hxy. destruct (fltb (fst x) (fst z)) eqn:E; apply before_cons.
  - destruct Hin as [->|Hin]; [congruence|]. right. now apply IH.
  - left. now split.
Qed.

Lemma insert_desc_keeps_before (x a b : float * row) (l : list (float * row)) :
  before a b l -> before a b (insert_desc x l).
Proof.
  induction l as [|z rest IH]; cbn [insert_desc].
  - intros (l1 & l2 & l3 & H). now destruct l1.
  - intros H. destruct (fltb (fst x) (fst z)); apply before_cons.
    + apply before_cons in H. destruct H as [[-> Hin]|H].
      * left. split; [reflexivity|].
        eapply Permutation_in; [symmetry; apply insert_desc_perm|now right].
      * right. now apply IH.
    + now right.
Qed.

(** The sort is stable: a row stays in front of a later row unless the
    later row has a strictly larger key. *)
Lemma sort_desc_stable (a b : float * row) (l : list (float * row)) :
  before a b l -> fltb (fst a) (fst b) = false -> before a b (sort_desc l).
Proof.
  induction l as [|x rest IH]; cbn [sort_desc fold_right].
  - intros (l1 & l2 & l3 & H). now destruct l1.
  - intros H Hab. apply before_cons in H. destruct H as [[-> Hin]|H].
    + apply insert_desc_before; [|assumption].
      eapply Permutation_in; [symmetry; apply sort_desc_perm|assumption].
    + apply insert_desc_keeps_before. now apply IH.
Qed.

Lemma with_keys_snd (l : list row) : map snd (with_keys l) = l.
Proof.
  unfold with_keys. rewrite map_map. cbn. apply map_id.
Qed.

Lemma keys_of_rows (ps : list (float * row)) :
  Forall (fun p => fst p = displayed (snd p)) ps -> ps = with_keys (map snd ps).
Proof.
  induction 1 as [|[k r] rest Hk _ IH]; [reflexivity|].
  cbn in Hk. subst k. unfold with_keys in *. cbn. f_equal. exact IH.
Qed.

Lemma with_keys_sorted (l : list row) :
  StronglySorted key_not_below (with_keys l) -> StronglySorted not_below l.
Proof.
  induction l as [|r rest IH]; cbn; intros H; [constructor|].
  inversion H as [|? ? Hs Hf]; subst. constructor; [now apply IH|].
  unfold with_keys in Hf. rewrite Forall_map in Hf. exact Hf.
Qed.

(** What [table.sort] does to the rows of the report. *)
Lemma sorted_rows (table : list row) :
  let rows := map snd (sort_desc (with_keys table)) in
  Permutation rows table /\
  (Forall (fun r => displayed r <> S754_nan) table -> StronglySorted not_below rows) /\
  (forall a b, before a b table -> not_below a b -> before a b rows).
Proof.
  intros rows.
  assert (P : Permutation (sort_desc (with_keys table)) (with_keys table))
    by apply sort_desc_perm.
  assert (K : sort_desc (with_keys table) = with_keys rows).
  { apply keys_of_rows. eapply Permutation_Forall; [symmetry; exact P|].
    unfold with_keys. rewrite Forall_map. now apply Forall_forall. }
  repeat split.
  - unfold rows. rewrite P. now rewrite with_keys_snd.
  - intros Hn. apply with_keys_sorted. rewrite <- K. apply sort_desc_sorted.
    unfold with_keys. rewrite Forall_map. exact Hn.
  - intros a b Hb Hab. unfold rows.
    change a with (snd (displayed a, a)). change b with (snd (displayed b, b)).
    apply before_map. apply sort_desc_stable; [|exact Hab].
    unfold with_keys. now apply (before_map (fun r => (displayed r, r))).
Qed.

End StableSort.

(* ================================================================== *)
(** * The totals of the report *)
(* ================================================================== *)

Lemma in_first_seen (x : str) (l : list str) : In x (first_seen l) <-> In x l.
Proof.
  induction l as [|y rest IH]; cbn; [tauto|].
  rewrite filter_In, IH. split.
  - intros [H|[H _]]; auto.
  - intros [H|H]; auto.
    destruct (list_eq_dec ascii_dec y x) as [E|E]; auto.
    right. split; [assumption|]. apply eqb_neq in E. now rewrite E.
Qed.

Lemma first_seen_nodup (l : list str) : NoDup (first_seen l).
Proof.
  induction l as [|y rest IH]; cbn; constructor.
  - rewrite filter_In. intros [_ H]. now rewrite eqb_refl in H.
  - now apply NoDup_filter.
Qed.

Lemma first_seen_snoc (l : list str) (x : str) :
  first_seen (l ++ [x]) =
  if in_dec (list_eq_dec ascii_dec) x l then first_seen l else first_seen l ++ [x].
Proof.
  induction l as [|y rest IH]; cbn [app first_seen].
  - destruct (in_dec (list_eq_dec ascii_dec) x []) as [[]|_]. reflexivity.
  - rewrite IH.
    destruct (in_dec (list_eq_dec ascii_dec) x rest) as [Hin|Hout];
      destruct (in_dec (list_eq_dec ascii_dec) x (y :: rest)) as [Hin'|Hout']; cbn in *; try tauto.
    + destruct Hin' as [->|]; [|contradiction].
      rewrite filter_app. cbn. rewrite eqb_refl. cbn. now rewrite app_nil_r.
    + rewrite filter_app. cbn.
      assert (E : eqb y x = false) by (apply eqb_neq; intros ->; tauto).
      now rewrite E.
Qed.

Lemma has_key_dict (c : str) (ks : list str) (g : str -> stats) :
  has_key c (map (fun k => (k, g k)) ks) = true <-> In c ks.
Proof.
  induction ks as [|k rest IH]; cbn; [split; [discriminate|tauto]|].
  rewrite orb_true_iff, IH, eqb_eq. tauto.
Qed.

Lemma update_dict (c : str) (f : stats -> stats) (ks : list str) (g : str -> stats) :
  NoDup ks ->
  update c f (map (fun k => (k, g k)) ks) =
  map (fun k => (k, if eqb k c then f (g k) else g k)) ks.
Proof.
  induction 1 as [|k rest Hk Hnd IH]; cbn; [reflexivity|].
  destruct (eqb k c) eqn:E.
  - f_equal. apply map_ext_in. intros k' Hin.
    apply eqb_eq in E. subst c.
    assert (E' : eqb k' k = false) by (apply eqb_neq; intros ->; contradiction).
    now rewrite E'.
  - now rewrite IH.
Qed.

Lemma update_absent (c : str) (f : stats -> stats) (d : dict) (v : stats) :
  has_key c d = false -> update c f (d ++ [(c, v)]) = d ++ [(c, f v)].
Proof.
  induction d as [|[k v'] rest IH]; cbn.
  - now rewrite eqb_refl.
  - intros H. apply orb_false_iff in H. destruct H as [E H].
    rewrite E. now rewrite IH.
Qed.

Lemma group_snoc (k : str) (p : list Shoe) (sh : Shoe) :
  group k (p ++ [sh]) = group k p ++ (if eqb (country sh) k then [sh] else []).
Proof. unfold group. now rewrite filter_app. Qed.

Lemma group_absent (k : str) (p : list Shoe) :
  ~ In k (map country p) -> group k p = [].
Proof.
  induction p as [|x rest IH]; cbn; [reflexivity|].
  intros H. destruct (eqb (country x) k) eqn:E.
  - apply eqb_eq in E. tauto.
  - apply IH. tauto.
Qed.

(** One more record in a group: the three totals move as the loop body
    moves them. *)
Lemma stats_of_snoc (g : list Shoe) (sh : Shoe) (q : float) :
  float_of_int (quantity sh) = Some q ->
  stats_of (g ++ [sh]) =
  mkStats (fadd (total_value (stats_of g)) (fmul (cost sh) q))
          (total_quantity (stats_of g) + quantity sh)
          (products (stats_of g) + 1).
Proof.
  intros Hq. unfold stats_of. cbn [total_value total_quantity products]. f_equal.
  - unfold sum_values. rewrite fold_left_app. cbn [fold_left].
    unfold value_of. now rewrite Hq.
  - unfold sum_quantities. now rewrite fold_left_app.
  - rewrite length_app. cbn [length]. lia.
Qed.

Lemma tally_step (p : list Shoe) (sh : Shoe) (w : world) :
  fits_float sh -> tally (dict_of p) sh w = Return (dict_of (p ++ [sh])) w.
Proof.
  unfold fits_float. intros Hq.
  destruct (float_of_int (quantity sh)) as [q|] eqn:Eq; [clear Hq|congruence].
  unfold tally, py_float. rewrite Eq. run. f_equal.
  change (dict_of (p ++ [sh]))
    with (map (fun c => (c, stats_of (group c (p ++ [sh]))))
              (first_seen (map country (p ++ [sh])))).
  rewrite (map_app country). cbn [map]. rewrite first_seen_snoc.
  set (f := fun st => mkStats (fadd (total_value st) (fmul (cost sh) q))
                              (total_quantity st + quantity sh) (products st + 1)).
  destruct (in_dec (list_eq_dec ascii_dec) (country sh) (map country p)) as [Hin|Hout].
  - assert (Hk : has_key (country sh) (dict_of p) = true)
      by (unfold dict_of; apply has_key_dict; now apply in_first_seen).
    rewrite Hk. unfold dict_of.
    rewrite update_dict by apply first_seen_nodup.
    apply map_ext. intros k. rewrite group_snoc.
    destruct (eqb k (country sh)) eqn:E.
    + apply eqb_eq in E. subst k. rewrite eqb_refl.
      now rewrite (stats_of_snoc _ _ Eq).
    + assert (E' : eqb (country sh) k = false)
        by (apply eqb_neq; apply eqb_neq in E; congruence).
      now rewrite E', app_nil_r.
  - assert (Hk : has_key (country sh) (dict_of p) = false).
    { destruct (has_key (country sh) (dict_of p)) eqn:E; [|reflexivity].
      unfold dict_of in E. apply has_key_dict in E.
      apply -> in_first_seen in E. contradiction. }
    rewrite Hk, update_absent by assumption.
    unfold dict_of. rewrite map_app. cbn [map]. f_equal.
    + apply map_ext_in. intros k Hin. rewrite group_snoc.
      assert (E' : eqb (country sh) k = false).
      { apply eqb_neq. intros <-. apply -> in_first_seen in Hin. contradiction. }
      now rewrite E', app_nil_r.
    + rewrite group_snoc, eqb_refl, (group_absent _ _ Hout).
      rewrite (stats_of_snoc [] _ Eq). reflexivity.
Qed.

Lemma tally_all_dict (l p : list Shoe) (w : world) :
  Forall fits_float l -> tally_all (dict_of p) l w = Return (dict_of (p ++ l)) w.
Proof.
  intros H; revert p; induction H as [|sh rest Hsh _ IH]; intros p; cbn [tally_all].
  - now rewrite app_nil_r.
  - unfold bind. rewrite tally_step by assumption.
    rewrite IH. now rewrite <- app_assoc.
Qed.

Lemma by_country_dict (l : list Shoe) : by_country l = map row_of (dict_of l).
Proof. unfold by_country, dict_of. now rewrite map_map. Qed.

(* ================================================================== *)
(** * Digits and the text of numbers *)
(* ================================================================== *)

Lemma digit_chr_isdigit (d : Z) : 0 <= d <= 9 -> isdigit (digit_chr d) = true.
Proof.
  intros H.
  assert (E : d = 0 \/ d = 1 \/ d = 2 \/ d = 3 \/ d = 4 \/ d = 5 \/ d = 6 \/
              d = 7 \/ d = 8 \/ d = 9) by lia.
  repeat (destruct E as [->|E]; [reflexivity|]). now subst d.
Qed.

Lemma digit_val_chr (d : Z) : 0 <= d <= 9 -> digit_val (digit_chr d) = d.
Proof.
  intros H.
  assert (E : d = 0 \/ d = 1 \/ d = 2 \/ d = 3 \/ d = 4 \/ d = 5 \/ d = 6 \/
              d = 7 \/ d = 8 \/ d = 9) by lia.
  repeat (destruct E as [->|E]; [reflexivity|]). now subst d.
Qed.

Lemma digits_fuel_isdigit (fuel : nat) (n : Z) (acc : str) :
  0 <= n -> forallb isdigit acc = true ->
  forallb isdigit (digits_fuel fuel n acc) = true.
Proof.
  revert n acc; induction fuel as [|f IH]; intros n acc Hn Hacc; cbn; [assumption|].
  destruct (n <? 10) eqn:E.
  - cbn. rewrite Hacc, digit_chr_isdigit; [reflexivity|lia].
  - apply IH.
    + apply Z.div_pos; lia.
    + cbn. rewrite Hacc, digit_chr_isdigit; [reflexivity|].
      pose proof (Z.mod_pos_bound n 10). lia.
Qed.

Lemma digits_fuel_nonempty (fuel : nat) (n : Z) (acc : str) :
  acc <> [] -> digits_fuel fuel n acc <> [].
Proof.
  revert n acc; induction fuel as [|f IH]; intros n acc Hacc; cbn; [assumption|].
  destruct (n <? 10); [discriminate|]. apply IH. discriminate.
Qed.

Lemma digits_isdigit (n : Z) : 0 <= n -> forallb isdigit (digits n) = true.
Proof. intros H. now apply digits_fuel_isdigit. Qed.

Lemma digits_nonempty (n : Z) : digits n <> [].
Proof.
  unfold digits. cbn. destruct (n <? 10); [discriminate|].
  apply digits_fuel_nonempty. discriminate.
Qed.

(** ** What the characters of a number are not *)

Lemma isdigit_facts (c : ascii) :
  isdigit c = true ->
  c_isspace c = false /\ isspace c = false /\ plain c = true /\
  c <> "_"%char /\ c <> "-"%char /\ c <> "+"%char /\ c <> "."%char /\
  lower_char c = c /\ c <> "i"%char /\ c <> "n"%char.
Proof.
  destruct c as [[] [] [] [] [] [] [] []]; cbn; intros H; try discriminate H;
    repeat split; discriminate.
Qed.

(** ** Stripping and grouping leave plain numbers alone *)

Lemma strip_with_fixed (p : ascii -> bool) (x : str) :
  dropWhile p x = x -> dropWhile p (rev x) = rev x -> strip_with p x = x.
Proof.
  intros A B. unfold strip_with. now rewrite A, B, rev_involutive.
Qed.

Lemma dropWhile_head (p : ascii -> bool) (c : ascii) (r : str) :
  p c = false -> dropWhile p (c :: r) = c :: r.
Proof. intros H. cbn. now rewrite H. Qed.

(** A text that neither starts nor ends with a character of [p]. *)
Lemma strip_with_ends (p : ascii -> bool) (c d : ascii) (front x : str) :
  x = front ++ [d] -> hd d x = c -> p c = false -> p d = false ->
  strip_with p x = x.
Proof.
  intros -> Hhd Hc Hd. apply strip_with_fixed.
  - destruct front as [|c' r]; cbn in Hhd; subst c; now apply dropWhile_head.
  - rewrite rev_app_distr. now apply dropWhile_head.
Qed.

Lemma ungroup_plain (x : str) :
  forall prev, prev <> "_"%char -> Forall (fun c => c <> "_"%char) x ->
               ungroup prev x = Some x.
Proof.
  induction x as [|c r IH]; intros prev Hp Hx; cbn.
  - destruct (ascii_dec prev "_"); [contradiction|reflexivity].
  - inversion Hx as [|? ? Hc Hr]; subst.
    destruct (ascii_dec c "_"); [contradiction|].
    destruct (ascii_dec prev "_"); [contradiction|].
    now rewrite IH.
Qed.

Lemma span_digits (ds rest : str) :
  forallb isdigit ds = true ->
  match rest with [] => True | c :: _ => isdigit c = false end ->
  span isdigit (ds ++ rest) = (ds, rest).
Proof.
  intros Hds Hrest. induction ds as [|d r IH]; cbn [span app forallb] in *.
  - destruct rest as [|c r]; [reflexivity|]. cbn [span]. now rewrite Hrest.
  - apply andb_true_iff in Hds. destruct Hds as [Hd Hr].
    now rewrite Hd, IH.
Qed.

Lemma split_sign_digit (c : ascii) (r : str) :
  isdigit c = true -> split_sign (c :: r) = (false, c :: r).
Proof.
  intros H. destruct (isdigit_facts _ H) as (_ & _ & _ & _ & Hm & Hp & _).
  cbn. destruct (ascii_dec c "-"); [contradiction|].
  destruct (ascii_dec c "+"); [contradiction|reflexivity].
Qed.

Lemma split_sign_signed (neg : bool) (c : ascii) (r : str) :
  isdigit c = true -> split_sign (signed neg (c :: r)) = (neg, c :: r).
Proof.
  intros H. destruct neg; [reflexivity|]. now apply split_sign_digit.
Qed.

(** A text that starts with a digit is none of the words [float()] knows. *)
Lemma digit_word (c : ascii) (r : str) :
  isdigit c = true ->
  eqb (lower (c :: r)) (s "inf") || eqb (lower (c :: r)) (s "infinity") = false /\
  eqb (lower (c :: r)) (s "nan") = false.
Proof.
  intros H. destruct (isdigit_facts _ H) as (_ & _ & _ & _ & _ & _ & _ & Hl & Hi & Hn).
  cbn [lower map]. rewrite Hl. split; [apply orb_false_iff; split|];
    apply eqb_neq; intros E; injection E; intros; congruence.
Qed.

(** ** The text of a displayed total is read back as a number *)

Lemma float_of_str_fixed (neg : bool) (ds : str) (a b : ascii) :
  ds <> [] -> forallb isdigit ds = true -> isdigit a = true -> isdigit b = true ->
  float_of_str (signed neg (ds ++ "."%char :: [a; b])) =
  Some (round_decimal neg (digits_val (ds ++ [a; b])) (-2)).
Proof.
  intros Hne Hds Ha Hb.
  destruct ds as [|d ds']; [congruence|clear Hne].
  pose proof Hds as Hds0. cbn [forallb] in Hds0. apply andb_true_iff in Hds0.
  destruct Hds0 as [Hd Hds'].
  set (body := (d :: ds') ++ "."%char :: [a; b]).
  assert (Hplain : Forall (fun c => c <> "_"%char) (signed neg body)).
  { assert (Hb' : Forall (fun c => c <> "_"%char) body).
    { apply Forall_app; split.
      - apply Forall_forall. intros c Hc.
        rewrite forallb_forall in Hds. now apply isdigit_facts, Hds.
      - repeat constructor; try discriminate; now apply isdigit_facts. }
    destruct neg; [constructor; [discriminate|assumption]|assumption]. }
  assert (Hstrip : strip_with c_isspace (signed neg body) = signed neg body).
  { apply (@strip_with_ends c_isspace (if neg then "-"%char else d) b
             (signed neg ((d :: ds') ++ ["."%char; a]))).
    - destruct neg; unfold body; cbn [signed app]; now rewrite <- app_assoc.
    - now destruct neg.
    - destruct neg; [reflexivity|now apply isdigit_facts].
    - now apply isdigit_facts. }
  unfold float_of_str. rewrite Hstrip, ungroup_plain by (assumption || discriminate).
  unfold body at 1. cbn [app]. rewrite split_sign_signed by assumption.
  destruct (@digit_word d (ds' ++ "."%char :: [a; b]) Hd) as [W1 W2].
  rewrite W1, W2.
  unfold parse_decimal.
  change (d :: ds' ++ "."%char :: [a; b]) with ((d :: ds') ++ "."%char :: [a; b]).
  rewrite span_digits by (assumption || reflexivity).
  destruct (ascii_dec "." "."); [|congruence].
  change [a; b] with ([a; b] ++ []).
  rewrite span_digits by (cbn; now rewrite ?Ha, ?Hb).
  cbn [app nonempty parse_exponent length]. reflexivity.
Qed.

Lemma cents_nonneg (m : positive) (e : Z) : 0 <= cents m e.
Proof.
  unfold cents. destruct (0 <=? e) eqn:E.
  - apply Z.leb_le in E. pose proof (Z.pow_nonneg 2 e). nia.
  - assert (Hb : 0 < 2 ^ (- e)) by (apply Z.pow_pos_nonneg; lia).
    assert (Hq : 0 <= Zpos m * 100 / 2 ^ (- e)) by (apply Z.div_pos; lia).
    destruct (2 * ((Zpos m * 100) mod 2 ^ (- e)) ?= 2 ^ (- e)); try lia.
    destruct (Z.even (Zpos m * 100 / 2 ^ (- e))); lia.
Qed.

Lemma two_digits_isdigit (n : Z) :
  0 <= n < 100 ->
  isdigit (digit_chr (n / 10)) = true /\ isdigit (digit_chr (n mod 10)) = true.
Proof.
  intros H. split; apply digit_chr_isdigit.
  - assert (0 <= n / 10) by (apply Z.div_pos; lia).
    assert (n / 10 < 10) by (apply Z.div_lt_upper_bound; lia). lia.
  - pose proof (Z.mod_pos_bound n 10). lia.
Qed.

(** [float(x[3][1:])] never fails on a row of the report. *)
Lemma format_2f_reads (x : float) : exists k, float_of_str (format_2f x) = Some k.
Proof.
  destruct x as [neg|neg| |neg m e].
  - destruct neg; now eexists.
  - destruct neg; now eexists.
  - now eexists.
  - unfold format_2f, two_digits.
    pose proof (cents_nonneg m e) as Hc.
    destruct (@two_digits_isdigit (cents m e mod 100)) as [Ha Hb];
      [apply Z.mod_pos_bound; lia|].
    eexists. apply float_of_str_fixed; try assumption.
    + apply digits_nonempty.
    + apply digits_isdigit. apply Z.div_pos; lia.
Qed.

Lemma sort_key_displayed (entry : str * stats) (w : world) :
  sort_key (row_of entry) w = Return (displayed (row_of entry)) w.
Proof.
  unfold sort_key, displayed, row_of, money, py_float. cbn [row_value skipn].
  destruct (format_2f_reads (total_value (snd entry))) as [k ->]. reflexivity.
Qed.

Lemma keyed_with_keys (d : dict) (w : world) :
  keyed (map row_of d) w = Return (with_keys (map row_of d)) w.
Proof.
  induction d as [|entry rest IH]; cbn [map keyed]; [reflexivity|].
  unfold bind. rewrite sort_key_displayed, IH. reflexivity.
Qed.

Lemma stock_by_country_rows (w : world) :
  shoe_list w <> [] ->
  Forall fits_float (shoe_list w) ->
  stock_by_country w =
  Return tt (reported w (map snd (sort_desc (with_keys (by_country (shoe_list w)))))).
Proof.
  destruct w as [l f ins o]. cbn [shoe_list]. intros Hne Hfit.
  unfold stock_by_country, bind at 1, get_shoes. cbn [shoe_list].
  destruct l as [|x rest]; [congruence|].
  unfold bind at 1. change (@nil (str * stats)) with (dict_of []).
  rewrite tally_all_dict by assumption. cbn [app].
  unfold bind at 1. rewrite keyed_with_keys.
  rewrite by_country_dict. run. unfold reported.
  cbn [shoe_list inventory_txt stdin stdout]. now rewrite <- app_assoc.
Qed.

(** C8, as the code has it: on a store that is not empty (whose
    quantities convert to floats, and whose totals are displayed as
    numbers) the report has one row for each distinct country string,
    with the number of its records, the sum of their quantities and the
    sum of cost * quantity displayed with two decimals; the rows are in
    descending order of the displayed total, and a row stays in front
    of a later row of the first-appearance order unless the later row
    displays a strictly larger total. *)
Theorem report_is_sorted_by_displayed_total (w : world) :
  shoe_list w <> [] ->
  Forall fits_float (shoe_list w) ->
  Forall (fun r => displayed r <> S754_nan) (by_country (shoe_list w)) ->
  exists rows,
    stock_by_country w = Return tt (reported w rows) /\
    Permutation rows (by_country (shoe_list w)) /\
    StronglySorted not_below rows /\
    (forall a b, before a b (by_country (shoe_list w)) -> not_below a b -> before a b rows).
Proof.
  intros Hne Hfit Hnum.
  destruct (sorted_rows (by_country (shoe_list w))) as (P & S & B).
  eexists. split; [now apply stock_by_country_rows|].
  repeat split; auto.
Qed.

Lemma report_is_sorted_by_displayed_total_witness :
  (exists rows,
    stock_by_country (mkWorld three_shoes None [] []) =
    Return tt (reported (mkWorld three_shoes None [] []) rows) /\
    Permutation rows (by_country three_shoes) /\
    StronglySorted not_below rows /\
    (forall a b, before a b (by_country three_shoes) -> not_below a b -> before a b rows)) /\
  by_country three_shoes =
    [mkRow (s "ZA") 2 3 (s "R25.00"); mkRow (s "US") 1 1 (s "R100.00")] /\
  stock_by_country (mkWorld three_shoes None [] []) =
  Return tt (reported (mkWorld three_shoes None [] [])
               [mkRow (s "US") 1 1 (s "R100.00"); mkRow (s "ZA") 2 3 (s "R25.00")]).
Proof.
  split; [|split; vm_compute; reflexivity].
  apply (@report_is_sorted_by_displayed_total (mkWorld three_shoes None [] [])).
  - discriminate.
  - repeat constructor; vm_compute; discriminate.
  - repeat constructor; vm_compute; discriminate.
Defined.

(** C8 as stated fails when two totals differ by less than a cent: the
    rows are ordered by the displayed totals, which are equal here, so
    country A (total value 1.001) stays in front of country B (total
    value 1.004). *)
Lemma report_ignores_fractions_of_a_cent :
  stock_by_country (mkWorld close_shoes None [] []) =
  Return tt (reported (mkWorld close_shoes None [] [])
               [mkRow (s "A") 1 1 (s "R1.00"); mkRow (s "B") 1 1 (s "R1.00")]) /\
  fltb (sum_values (group (s "A") close_shoes))
       (sum_values (group (s "B") close_shoes)) = true.
Proof. split; vm_compute; reflexivity. Qed.

(** The report raises when a quantity does not convert to a float. *)
Lemma report_raises_on_huge_quantity :
  stock_by_country (mkWorld huge_shoes None [] []) =
  Raise (mkExn OverflowError (s "int too large to convert to float"))
        (mkWorld huge_shoes None [] []).
Proof. vm_compute. reflexivity. Qed.

(* ================================================================== *)
(** * Numbers written and read back *)
(* ================================================================== *)

Lemma digits_fuel_val (fuel : nat) :
  forall (n : Z) (acc : str),
    0 <= n < 10 ^ Z.of_nat fuel ->
    fold_left (fun a c => 10 * a + digit_val c) (digits_fuel fuel n acc) 0 =
    fold_left (fun a c => 10 * a + digit_val c) acc n.
Proof.
  induction fuel as [|f IH]; intros n acc Hn.
  - cbn in *. now replace n with 0 by lia.
  - cbn [digits_fuel]. destruct (n <? 10) eqn:E.
    + apply Z.ltb_lt in E. cbn [fold_left].
      rewrite digit_val_chr by lia. f_equal; lia.
    + apply Z.ltb_ge in E.
      rewrite Nat2Z.inj_succ, Z.pow_succ_r in Hn by lia.
      rewrite IH.
      * cbn [fold_left]. rewrite digit_val_chr by (pose proof (Z.mod_pos_bound n 10); lia).
        f_equal; pose proof (Z.div_mod n 10); lia.
      * split; [apply Z.div_pos; lia|]. apply Z.div_lt_upper_bound; lia.
Qed.

Lemma digits_val_digits (n : Z) : 0 <= n -> digits_val (digits n) = n.
Proof.
  intros Hn. unfold digits_val, digits. rewrite digits_fuel_val; [reflexivity|].
  split; [assumption|].
  rewrite Nat2Z.inj_succ, Z2Nat.id by apply Z.log2_nonneg.
  destruct (Z.eq_dec n 0) as [->|Hz]; [reflexivity|].
  apply Z.lt_le_trans with (2 ^ Z.succ (Z.log2 n)).
  - apply Z.log2_spec. lia.
  - apply Z.pow_le_mono_l. pose proof (Z.log2_nonneg n). lia.
Qed.

Lemma digits_head (n : Z) :
  0 <= n -> exists d r, digits n = d :: r /\ isdigit d = true.
Proof.
  intros Hn. pose proof (digits_isdigit Hn) as H.
  pose proof (digits_nonempty n) as Hne.
  destruct (digits n) as [|d r]; [congruence|].
  cbn in H. apply andb_true_iff in H. now exists d, r.
Qed.

Lemma digits_last (n : Z) :
  0 <= n -> exists front d, digits n = front ++ [d] /\ isdigit d = true.
Proof.
  intros Hn. pose proof (digits_isdigit Hn) as H.
  pose proof (digits_nonempty n) as Hne.
  destruct (exists_last Hne) as (front & d & E). exists front, d.
  split; [assumption|]. rewrite E, forallb_app in H.
  apply andb_true_iff in H. destruct H as [_ H]. cbn in H.
  now rewrite andb_true_r in H.
Qed.

Lemma digits_not_underscore (n : Z) :
  0 <= n -> Forall (fun c => c <> "_"%char) (digits n).
Proof.
  intros Hn. pose proof (digits_isdigit Hn) as H.
  rewrite forallb_forall in H. apply Forall_forall. intros c Hc.
  now apply isdigit_facts, H.
Qed.

(** [int(str(q))] is [q]. *)
Lemma int_of_str_of_int (q : Z) : int_of_str (str_of_int q) = Some q.
Proof.
  unfold int_of_str, str_of_int. destruct (q <? 0) eqn:E.
  - apply Z.ltb_lt in E.
    destruct (@digits_last (- q)) as (front & d & Hd & Hdd); [lia|].
    assert (Hs : strip_with c_isspace ("-"%char :: digits (- q)) = "-"%char :: digits (- q)).
    { apply (@strip_with_ends c_isspace "-"%char d ("-"%char :: front)).
      - now rewrite Hd.
      - reflexivity.
      - reflexivity.
      - now apply isdigit_facts. }
    rewrite Hs. cbn [split_sign]. destruct (ascii_dec "-" "-"); [|congruence].
    destruct (@digits_head (- q)) as (d0 & r0 & Hh & Hd0); [lia|].
    rewrite ungroup_plain by (discriminate || apply digits_not_underscore; lia).
    rewrite digits_isdigit by lia. rewrite Hh at 1. cbn [nonempty andb].
    rewrite digits_val_digits by lia. f_equal. lia.
  - apply Z.ltb_ge in E.
    destruct (digits_last E) as (front & d & Hd & Hdd).
    destruct (digits_head E) as (d0 & r0 & Hh & Hd0).
    assert (Hs : strip_with c_isspace (digits q) = digits q).
    { apply (@strip_with_ends c_isspace d0 d front).
      - assumption.
      - now rewrite Hh.
      - now apply isdigit_facts.
      - now apply isdigit_facts. }
    rewrite Hs. rewrite Hh at 1. rewrite split_sign_digit by assumption. rewrite <- Hh.
    rewrite ungroup_plain by (discriminate || now apply digits_not_underscore).
    rewrite digits_isdigit by lia. rewrite Hh at 1. cbn [nonempty andb].
    now rewrite digits_val_digits.
Qed.

(** ** The characters of written numbers *)

Lemma all_plain_digits (n : Z) : 0 <= n -> all_plain (digits n).
Proof.
  intros Hn. pose proof (digits_isdigit Hn) as H.
  rewrite forallb_forall in H. apply Forall_forall. intros c Hc.
  now apply isdigit_facts, H.
Qed.

Lemma all_plain_signed (neg : bool) (x : str) : all_plain x -> all_plain (signed neg x).
Proof. intros H. destruct neg; [now constructor|assumption]. Qed.

Lemma all_plain_str_of_int (q : Z) : all_plain (str_of_int q).
Proof.
  unfold str_of_int. destruct (q <? 0) eqn:E.
  - apply Z.ltb_lt in E. constructor; [reflexivity|]. apply all_plain_digits. lia.
  - apply Z.ltb_ge in E. now apply all_plain_digits.
Qed.

Lemma str_of_int_last (q : Z) :
  exists front d, str_of_int q = front ++ [d] /\ isdigit d = true.
Proof.
  unfold str_of_int. destruct (q <? 0) eqn:E.
  - apply Z.ltb_lt in E.
    destruct (@digits_last (- q)) as (front & d & Hd & Hdd); [lia|].
    exists ("-"%char :: front), d. now rewrite Hd.
  - apply Z.ltb_ge in E. now apply digits_last.
Qed.

Section Plain.

Variable A : Type.
Variable P : A -> Prop.

Lemma Forall_firstn (n : nat) (l : list A) : Forall P l -> Forall P (firstn n l).
Proof.
  intros H; revert n; induction H as [|x r Hx Hr IH]; intros [|n]; cbn;
    constructor; auto.
Qed.

Lemma Forall_skipn (n : nat) (l : list A) : Forall P l -> Forall P (skipn n l).
Proof.
  intros H; revert n; induction H as [|x r Hx Hr IH]; intros [|n]; cbn;
    try constructor; auto.
Qed.

Lemma Forall_repeat (x : A) (n : nat) : P x -> Forall P (repeat x n).
Proof. intros H. induction n; cbn; constructor; auto. Qed.

End Plain.

Lemma all_plain_dropWhile (p : ascii -> bool) (x : str) :
  all_plain x -> all_plain (dropWhile p x).
Proof.
  induction 1 as [|c r Hc Hr IH]; cbn; [constructor|].
  destruct (p c); [assumption|now constructor].
Qed.

Lemma all_plain_exponent_text (e : Z) : all_plain (exponent_text e).
Proof.
  unfold exponent_text. constructor; [now destruct (e <? 0)|].
  destruct (Z.abs e <? 10); [constructor; [reflexivity|]|];
    apply all_plain_digits; lia.
Qed.

Lemma all_plain_layout (ds : str) (decpt : Z) : all_plain ds -> all_plain (layout ds decpt).
Proof.
  intros H. unfold layout, zeros, all_plain.
  destruct ((-4 <? decpt) && (decpt <=? 16)).
  - destruct (decpt <=? 0); [|destruct (Z.of_nat (length ds) <=? decpt)].
    + repeat (apply Forall_app; split); try assumption.
      * repeat constructor.
      * now apply Forall_repeat.
    + repeat (apply Forall_app; split); try assumption.
      * now apply Forall_repeat.
      * repeat constructor.
    + apply Forall_app; split; [now apply Forall_firstn|].
      constructor; [reflexivity|now apply Forall_skipn].
  - destruct ds as [|d [|d' more]]; [constructor| |].
    + inversion H; subst. constructor; [assumption|].
      constructor; [reflexivity|apply all_plain_exponent_text].
    + inversion H as [|? ? Hd Hm]; subst. constructor; [assumption|].
      constructor; [reflexivity|]. apply Forall_app; split; [assumption|].
      constructor; [reflexivity|apply all_plain_exponent_text].
Qed.

Lemma nearest_nonneg (lo r b : Z) : 0 <= lo -> 0 <= nearest lo r b.
Proof.
  intros H. unfold nearest.
  destruct (2 * r ?= b); try lia. destruct (Z.even lo); lia.
Qed.

Lemma scaled_sign (num den q : Z) :
  0 <= num -> 0 < den -> 0 <= fst (scaled num den q) /\ 0 < snd (scaled num den q).
Proof.
  intros Hn Hd. unfold scaled. destruct (0 <=? q) eqn:E; cbn.
  - apply Z.leb_le in E. split; [assumption|].
    assert (0 < 10 ^ q) by (apply Z.pow_pos_nonneg; lia). nia.
  - apply Z.leb_gt in E. split; [|assumption].
    assert (0 < 10 ^ (- q)) by (apply Z.pow_pos_nonneg; lia). nia.
Qed.

Lemma shortest_nonneg (fuel : nat) (x : float) (num den k : Z) :
  0 <= num -> 0 < den -> forall p, 0 <= fst (shortest fuel x num den k p).
Proof.
  intros Hn Hd. induction fuel as [|f IH]; intros p; cbn [shortest].
  - destruct (scaled_sign (k - p + 1) Hn Hd) as [Ha Hb].
    destruct (scaled num den (k - p + 1)) as [a b]. cbn in *.
    apply nearest_nonneg. apply Z.div_pos; lia.
  - unfold shortest_at.
    destruct (scaled_sign (k - p + 1) Hn Hd) as [Ha Hb].
    destruct (scaled num den (k - p + 1)) as [a b]. cbn [fst snd] in *.
    assert (Hlo : 0 <= a / b) by (apply Z.div_pos; lia).
    destruct (a mod b =? 0).
    + destruct (reads_back x (a / b) (k - p + 1)); [assumption|apply IH].
    + destruct (reads_back x (a / b) (k - p + 1)),
               (reads_back x (a / b + 1) (k - p + 1)); cbn [fst];
        try apply IH; try lia.
      now apply nearest_nonneg.
Qed.

(** [repr] of a float has no comma and no line break. *)
Lemma all_plain_repr_float (x : float) : all_plain (repr_float x).
Proof.
  destruct x as [neg|neg| |neg m e]; cbn [repr_float].
  - destruct neg; repeat constructor.
  - destruct neg; repeat constructor.
  - repeat constructor.
  - set (nd := if 0 <=? e then (Z.pos m * 2 ^ e, 1) else (Z.pos m, 2 ^ (- e))).
    assert (Hnd : 0 <= fst nd /\ 0 < snd nd).
    { unfold nd. destruct (0 <=? e) eqn:E; cbn [fst snd].
      - apply Z.leb_le in E.
        assert (0 < 2 ^ e) by (apply Z.pow_pos_nonneg; lia). split; nia.
      - apply Z.leb_gt in E. split; [lia|]. apply Z.pow_pos_nonneg; lia. }
    destruct nd as [num den]. cbn [fst snd] in Hnd. destruct Hnd as [Hn Hd].
    pose proof (shortest_nonneg 16 (S754_finite false m e) (ilog10 num den) Hn Hd 1) as Hs.
    destruct (shortest 16 (S754_finite false m e) num den (ilog10 num den) 1) as [d q].
    cbn [fst] in Hs.
    apply all_plain_signed, all_plain_layout.
    apply Forall_rev, all_plain_dropWhile, Forall_rev. now apply all_plain_digits.
Qed.

(* ================================================================== *)
(** * Adding and loading back *)
(* ================================================================== *)

Section Split.

Variable sep : ascii.

Lemma split_free (x : str) :
  Forall (fun c => c <> sep) x -> split sep x = [x].
Proof.
  induction 1 as [|c r Hc Hr IH]; cbn; [reflexivity|].
  destruct (ascii_dec c sep); [contradiction|]. now rewrite IH.
Qed.

Lemma split_app (x y : str) :
  Forall (fun c => c <> sep) x -> split sep (x ++ sep :: y) = x :: split sep y.
Proof.
  induction 1 as [|c r Hc Hr IH]; cbn [app split].
  - destruct (ascii_dec sep sep); [reflexivity|congruence].
  - destruct (ascii_dec c sep); [contradiction|]. now rewrite IH.
Qed.

End Split.

Lemma plain_facts (c : ascii) :
  plain c = true -> c <> comma /\ c <> LF /\ c <> CR.
Proof.
  unfold plain. destruct (ascii_dec c comma); [discriminate|].
  destruct (ascii_dec c LF); [discriminate|].
  destruct (ascii_dec c CR); [discriminate|]. auto.
Qed.

Lemma all_plain_of (x : str) : forallb plain x = true -> all_plain x.
Proof.
  intros H. apply Forall_forall. now apply forallb_forall.
Qed.

Lemma all_plain_no_comma (x : str) : all_plain x -> Forall (fun c => c <> comma) x.
Proof.
  intros H. eapply Forall_impl; [|exact H]. intros c Hc. now apply plain_facts.
Qed.

Lemma all_plain_one_line (x : str) : all_plain x -> one_line x.
Proof.
  intros H. eapply Forall_impl; [|exact H]. intros c Hc. now apply plain_facts.
Qed.

Lemma universal_newlines_none (x : str) :
  Forall (fun c => c <> CR) x -> universal_newlines x = x.
Proof.
  induction 1 as [|c r Hc Hr IH]; cbn [universal_newlines]; [reflexivity|].
  destruct (ascii_dec c CR); [contradiction|]. now rewrite IH.
Qed.

(** ** The line of a writable record *)

Section Line.

Variable sh : Shoe.
Hypothesis Hw : writable sh.

Lemma Shoe_str_unfold :
  Shoe_str sh =
  country sh ++ comma :: code sh ++ comma :: product sh ++ comma ::
    repr_float (cost sh) ++ comma :: str_of_int (quantity sh).
Proof. reflexivity. Qed.

Lemma Shoe_str_split :
  split comma (Shoe_str sh) =
  [country sh; code sh; product sh; repr_float (cost sh); str_of_int (quantity sh)].
Proof.
  destruct Hw as (H1 & H2 & H3 & _).
  rewrite Shoe_str_unfold.
  rewrite !split_app, split_free;
    auto using all_plain_no_comma, all_plain_of, all_plain_repr_float,
               all_plain_str_of_int.
Qed.

Lemma Shoe_str_one_line : one_line (Shoe_str sh).
Proof.
  destruct Hw as (H1 & H2 & H3 & _).
  assert (C : comma <> LF /\ comma <> CR) by (split; discriminate).
  rewrite Shoe_str_unfold. unfold one_line.
  repeat (apply Forall_app; split; [|constructor; [exact C|]]);
    apply all_plain_one_line;
    auto using all_plain_of, all_plain_repr_float, all_plain_str_of_int.
Qed.

Lemma Shoe_str_nonempty : Shoe_str sh <> [].
Proof. rewrite Shoe_str_unfold. now destruct (country sh). Qed.

Lemma Shoe_str_strip : strip (Shoe_str sh) = Shoe_str sh.
Proof.
  destruct Hw as (_ & _ & _ & H4 & _).
  destruct (str_of_int_last (quantity sh)) as (front & d & Hl & Hd).
  set (c := match country sh with c :: _ => c | [] => comma end).
  apply (@strip_with_ends isspace c d
           (country sh ++ comma :: code sh ++ comma :: product sh ++ comma ::
              repr_float (cost sh) ++ comma :: front)).
  - rewrite Shoe_str_unfold, Hl.
    repeat (rewrite <- app_assoc; cbn [app]). reflexivity.
  - rewrite Shoe_str_unfold. unfold c. now destruct (country sh).
  - unfold c. destruct (country sh); [reflexivity|exact H4].
  - now apply isdigit_facts.
Qed.

(** The loader reads the line of the record as the record. *)
Lemma Shoe_str_effect : effect_of_line (Shoe_str sh) = Appended sh.
Proof.
  unfold effect_of_line. rewrite Shoe_str_strip, Shoe_str_split.
  destruct Hw as (_ & _ & _ & _ & H5).
  rewrite H5, int_of_str_of_int. now destruct sh.
Qed.

End Line.

Lemma load_pure_written (l acc : list Shoe) :
  Forall writable l -> load_pure (map Shoe_str l) acc = (acc ++ l, None).
Proof.
  intros H; revert acc; induction H as [|sh rest Hsh _ IH]; intros acc; cbn [map load_pure].
  - now rewrite app_nil_r.
  - rewrite Shoe_str_effect by assumption. rewrite IH. now rewrite <- app_assoc.
Qed.

Lemma header_one_line : one_line header.
Proof. repeat constructor; discriminate. Qed.

Lemma split_lines (l : list Shoe) :
  Forall writable l ->
  forall x, one_line x ->
            split LF (x ++ concat (map line_of l)) = x :: map Shoe_str l.
Proof.
  induction 1 as [|sh rest Hsh _ IH]; intros x Hx; cbn [map concat].
  - rewrite app_nil_r. apply split_free.
    eapply Forall_impl; [|exact Hx]. now intros c [Hc _].
  - unfold line_of at 1. cbn [app]. rewrite split_app.
    + f_equal. apply IH. now apply Shoe_str_one_line.
    + eapply Forall_impl; [|exact Hx]. now intros c [Hc _].
Qed.

Lemma file_text_lines (l : list Shoe) :
  Forall writable l -> lines_of (file_text l) = header :: map Shoe_str l.
Proof.
  intros H. unfold lines_of, file_text.
  change (fun sh : Shoe => LF :: Shoe_str sh) with line_of.
  rewrite universal_newlines_none.
  - rewrite split_lines by (assumption || apply header_one_line).
    assert (Hne : Forall (fun p : str => p <> []) (header :: map Shoe_str l)).
    { constructor; [discriminate|]. apply Forall_map.
      eapply Forall_impl; [|exact H]. intros sh Hsh. now apply Shoe_str_nonempty. }
    destruct (rev (header :: map Shoe_str l)) as [|[|c r] before] eqn:E; try reflexivity.
    exfalso. rewrite Forall_forall in Hne. apply (Hne []); [|reflexivity].
    apply in_rev. rewrite E. now left.
  - apply Forall_app; split.
    + eapply Forall_impl; [|exact header_one_line]. now intros c [_ Hc].
    + apply Forall_concat, Forall_map.
      eapply Forall_impl; [|exact H]. intros sh Hsh.
      constructor; [discriminate|].
      eapply Forall_impl; [|exact (Shoe_str_one_line Hsh)]. now intros c [_ Hc].
Qed.

(** Loading a file that was rewritten from writable records gives the
    records back. *)
Lemma load_written (l : list Shoe) (w : world) :
  Forall writable l ->
  inventory_txt w = Some (file_text l) ->
  read_shoes_data w = Return true (mkWorld l (inventory_txt w) (stdin w) (stdout w)).
Proof.
  intros H Hf. rewrite read_shoes_data_cases, Hf, file_text_lines by assumption.
  now rewrite load_pure_written.
Qed.

(** What [n] adds in a row do to the store and the file. *)
Lemma times_capture (n : nat) :
  forall (w w' : world) (text : str),
    inventory_txt w = Some text ->
    times n capture_shoes w = Return tt w' ->
    exists added,
      length added = n /\
      shoe_list w' = shoe_list w ++ added /\
      inventory_txt w' = Some (text ++ concat (map line_of added)) /\
      Forall shoe_ok added.
Proof.
  induction n as [|k IH]; intros w w' text Hf; cbn [times].
  - intros [= <-]. exists []. cbn. now rewrite !app_nil_r.
  - unfold bind.
    destruct (capture_shoes_cases w)
      as [(w1 & E & _)|(w1 & sh & E & Hl & Hi & Hok & _)]; rewrite E; [discriminate|].
    intros Hk. rewrite Hf in Hi. cbn [file_or_empty] in Hi.
    destruct (IH _ _ _ Hi Hk) as (added & Hn & Hl' & Hi' & Hoks).
    exists (sh :: added). cbn [length map concat]. repeat split.
    + now rewrite Hn.
    + now rewrite Hl', Hl, <- app_assoc.
    + now rewrite Hi', <- app_assoc.
    + now constructor.
Qed.




(* ================================================================== *)
(** * What every computation keeps *)
(* ================================================================== *)

Section Frame.

Variable R : world -> world -> Prop.
Hypothesis R_refl : forall w, R w w.
Hypothesis R_trans : forall a b c, R a b -> R b c -> R a c.

Lemma respects_ret {A} (a : A) : respects R (ret a).
Proof. intro w. apply R_refl. Qed.

Lemma respects_raise {A} (e : exn) : respects R (@raise A e).
Proof. intro w. apply R_refl. Qed.

Lemma respects_bind {A B} (m : M A) (k : A -> M B) :
  respects R m -> (forall a, respects R (k a)) -> respects R (bind m k).
Proof.
  intros Hm Hk w. unfold bind. specialize (Hm w).
  destruct (m w) as [a w1|e w1]; cbn [world_of] in *.
  - eapply R_trans; [exact Hm | apply Hk].
  - exact Hm.
Qed.

Lemma respects_try {A} (m : M A) (catches : exn_kind -> bool) (h : exn -> M A) :
  respects R m -> (forall e, respects R (h e)) -> respects R (try_except m catches h).
Proof.
  intros Hm Hh w. unfold try_except. specialize (Hm w).
  destruct (m w) as [a w1|e w1]; cbn [world_of] in *.
  - exact Hm.
  - destruct (catches (kind e)); [|exact Hm].
    eapply R_trans; [exact Hm | apply Hh].
Qed.

Lemma respects_get_shoes : respects R get_shoes.
Proof. intro w. apply R_refl. Qed.

Lemma respects_get_file : respects R get_file.
Proof. intro w. apply R_refl. Qed.

Lemma respects_py_float (v : value) : respects R (py_float v).
Proof. intro w. destruct v; cbn; [destruct (float_of_str x)| |destruct (float_of_int n)]; apply R_refl. Qed.

Lemma respects_py_int (v : value) : respects R (py_int v).
Proof.
  intro w. destruct v; cbn; [destruct (int_of_str x)|destruct x as [| [|] | |]|]; apply R_refl.
Qed.

End Frame.

(** ** Computations built from the console alone *)

Section Console.

Variable R : world -> world -> Prop.
Hypothesis R_refl : forall w, R w w.
Hypothesis R_trans : forall a b c, R a b -> R b c -> R a c.
Hypothesis R_emit : forall e, respects R (emit e).
Hypothesis R_input : forall prompt, respects R (input prompt).

Ltac frame_step :=
  lazymatch goal with
  | |- respects _ (bind _ _) => apply respects_bind; [assumption | | intro]
  | |- respects _ (try_except _ _ _) => apply respects_try; [assumption | | intro]
  | |- respects _ (ret _) => apply respects_ret; assumption
  | |- respects _ (raise _) => apply respects_raise; assumption
  | |- respects _ get_shoes => apply respects_get_shoes; assumption
  | |- respects _ get_file => apply respects_get_file; assumption
  | |- respects _ (py_float _) => apply respects_py_float; assumption
  | |- respects _ (py_int _) => apply respects_py_int; assumption
  | |- respects _ (emit _) => apply R_emit
  | |- respects _ (input _) => apply R_input
  | |- respects _ (match ?x with _ => _ end) => destruct x
  end.

Ltac frame := unfold print; repeat frame_step.

Lemma respects_print (x : str) : respects R (print x).
Proof. frame. Qed.

Lemma respects_view_all : respects R view_all.
Proof. unfold view_all. frame. Qed.

Lemma respects_search_shoe : respects R search_shoe.
Proof. unfold search_shoe, show_found. frame. Qed.

Lemma respects_highest_qty : respects R highest_qty.
Proof. unfold highest_qty, show_highest. frame. Qed.

Lemma respects_item_value (sh : Shoe) : respects R (item_value sh).
Proof. unfold item_value. frame. Qed.

Lemma respects_value_rows (l : list Shoe) : respects R (value_rows l).
Proof.
  induction l as [|sh l IH]; cbn [value_rows]; [frame|].
  apply respects_bind; [assumption | apply respects_item_value | intro].
  apply respects_bind; [assumption | exact IH | intro]. frame.
Qed.

Lemma respects_item_values (l : list Shoe) : respects R (item_values l).
Proof.
  induction l as [|sh l IH]; cbn [item_values]; [frame|].
  apply respects_bind; [assumption | apply respects_item_value | intro].
  apply respects_bind; [assumption | exact IH | intro]. frame.
Qed.

Lemma respects_value_per_item : respects R value_per_item.
Proof.
  unfold value_per_item. apply respects_bind; [assumption | frame | ].
  intros [|sh l]; [frame|].
  apply respects_bind; [assumption | apply respects_value_rows | intro]. frame.
Qed.

Lemma respects_total_warehouse_value (py_sum : list float -> float) :
  respects R (total_warehouse_value py_sum).
Proof.
  unfold total_warehouse_value. apply respects_bind; [assumption | frame | ].
  intros [|sh l]; [frame|].
  apply respects_bind; [assumption | apply respects_item_values | intro]. frame.
Qed.

Lemma respects_tally_all (l : list Shoe) : forall d, respects R (tally_all d l).
Proof.
  induction l as [|sh l IH]; intro d; cbn [tally_all]; [frame|].
  apply respects_bind; [assumption | unfold tally; frame | intro; apply IH].
Qed.

Lemma respects_keyed (rows : list row) : respects R (keyed rows).
Proof.
  induction rows as [|r rows IH]; cbn [keyed]; [frame|].
  apply respects_bind; [assumption | unfold sort_key; frame | intro].
  apply respects_bind; [assumption | exact IH | intro]. frame.
Qed.

Lemma respects_stock_by_country : respects R stock_by_country.
Proof.
  unfold stock_by_country. apply respects_bind; [assumption | frame | ].
  intros [|sh l]; [frame|].
  apply respects_bind; [assumption | apply respects_tally_all | intro].
  apply respects_bind; [assumption | apply respects_keyed | intro]. frame.
Qed.

Lemma respects_show_lowest (sh : Shoe) : respects R (show_lowest sh).
Proof. unfold show_lowest. frame. Qed.

Lemma respects_menu : respects R menu.
Proof. unfold menu. frame. Qed.

(** The loop of [main] keeps what the two operations that change the
    data keep. *)
Hypothesis R_capture : respects R capture_shoes.
Hypothesis R_re_stock : respects R re_stock.

Variable py_sum : list float -> float.

Lemma respects_dispatch (choice : str) : respects R (dispatch py_sum choice).
Proof.
  unfold dispatch.
  repeat match goal with
         | |- respects _ (if ?c then _ else _) => destruct c
         end;
    (apply respects_bind; [assumption | | intro; frame]);
    first [ assumption
          | apply respects_view_all
          | apply respects_search_shoe
          | apply respects_value_per_item
          | apply respects_highest_qty
          | apply respects_stock_by_country
          | apply respects_total_warehouse_value
          | apply respects_print ].
Qed.

Lemma respects_menu_round : respects R (menu_round py_sum).
Proof.
  unfold menu_round.
  apply respects_bind; [assumption | apply respects_menu | intro].
  apply respects_bind; [assumption | apply R_input | intro]. apply respects_dispatch.
Qed.

Lemma respects_main_loop (fuel : nat) : respects R (main_loop py_sum fuel).
Proof.
  induction fuel as [|f IH]; cbn [main_loop]; [frame|].
  apply respects_bind; [assumption | apply respects_menu_round | ].
  intros [|]; [frame|exact IH].
Qed.

End Console.

(** ** Store and file under the console primitives *)

Lemma console_emit (R : world -> world -> Prop) :
  console_only R -> forall e, respects R (emit e).
Proof. intros H e w. apply H. Qed.

Lemma console_input (R : world -> world -> Prop) :
  console_only R -> forall prompt, respects R (input prompt).
Proof. intros H prompt w. unfold input. destruct (stdin w); apply H. Qed.

Lemma console_ask (R : world -> world -> Prop) {A} (prompt : str) (check : str -> A + str) :
  console_only R -> respects R (ask prompt check).
Proof.
  intros H w. unfold ask.
  destruct (prompt_until prompt check (stdin w)) as [shown [[a rest]|]]; apply H.
Qed.

Lemma same_data_refl (w : world) : same_data w w.
Proof. split; reflexivity. Qed.

Lemma same_data_trans (a b c : world) : same_data a b -> same_data b c -> same_data a c.
Proof. intros [H1 H2] [H3 H4]. split; congruence. Qed.

Lemma same_data_console : console_only same_data.
Proof. intros w ins out. split; reflexivity. Qed.

Lemma keeps_refl (P : world -> Prop) (w : world) : keeps P w w.
Proof. intro H. exact H. Qed.

Lemma keeps_trans (P : world -> Prop) (a b c : world) :
  keeps P a b -> keeps P b c -> keeps P a c.
Proof. unfold keeps. auto. Qed.

Lemma same_data_keeps (P : world -> Prop) :
  console_only (keeps P) -> forall w w', same_data w w' -> keeps P w w'.
Proof.
  intros H w w' [Hs Hf] HP. destruct w' as [l f i o]. cbn in Hs, Hf. subst.
  exact (H w i o HP).
Qed.

Lemma valid_store_console : console_only (keeps valid_store).
Proof. intros w ins out H. exact H. Qed.

Lemma synced_console : console_only (keeps synced).
Proof. intros w ins out H. exact H. Qed.

(** ** The console itself *)

Lemma io_after_refl (w : world) : io_after w w.
Proof. split; [exists []; reflexivity | exists []; symmetry; apply app_nil_r]. Qed.

Lemma io_after_trans (a b c : world) : io_after a b -> io_after b c -> io_after a c.
Proof.
  intros [[u1 H1] [o1 H2]] [[u2 H3] [o2 H4]]. split.
  - exists (u1 ++ u2). rewrite H1, H3. apply app_assoc.
  - exists (o1 ++ o2). rewrite H4, H2. symmetry. apply app_assoc.
Qed.

Lemma io_after_emit (e : event) : respects io_after (emit e).
Proof. intro w. split; [exists []; reflexivity | exists [e]; reflexivity]. Qed.

Lemma io_after_input (prompt : str) : respects io_after (input prompt).
Proof.
  intro w. unfold input. destruct (stdin w) as [|x rest] eqn:E; cbn [world_of]; split; cbn.
  - exists []. assumption.
  - eexists. reflexivity.
  - exists [x]. assumption.
  - eexists. reflexivity.
Qed.

Lemma prompt_until_suffix {A} (prompt : str) (check : str -> A + str) (ins : list str) :
  forall shown a rest,
    prompt_until prompt check ins = (shown, Some (a, rest)) ->
    exists used, ins = used ++ rest /\ used <> [].
Proof.
  induction ins as [|x ins IH]; intros shown a rest H; cbn in H; [discriminate|].
  destruct (check x) as [a'|complaint].
  - inversion H; subst. exists [x]. split; [reflexivity|discriminate].
  - destruct (prompt_until prompt check ins) as [shown' r] eqn:E.
    inversion H; subst. destruct (IH _ _ _ eq_refl) as [used [-> _]].
    exists (x :: used). split; [reflexivity|discriminate].
Qed.

Lemma io_after_ask {A} (prompt : str) (check : str -> A + str) :
  respects io_after (ask prompt check).
Proof.
  intro w. unfold ask.
  destruct (prompt_until prompt check (stdin w)) as [shown [[a rest]|]] eqn:E;
    cbn [world_of]; split; cbn.
  - destruct (prompt_until_suffix _ _ _ E) as [used [H _]]. exists used. exact H.
  - eexists. reflexivity.
  - exists (stdin w). symmetry. apply app_nil_r.
  - eexists. reflexivity.
Qed.

Lemma io_after_data (w : world) (l : list Shoe) (f : option str) :
  io_after w (mkWorld l f (stdin w) (stdout w)).
Proof. split; cbn; [exists []; reflexivity | exists []; symmetry; apply app_nil_r]. Qed.

Ltac io_step :=
  lazymatch goal with
  | |- respects _ (bind _ _) => apply respects_bind; [exact io_after_trans | | intro]
  | |- respects _ (try_except _ _ _) => apply respects_try; [exact io_after_trans | | intro]
  | |- respects _ (ret _) => apply respects_ret; exact io_after_refl
  | |- respects _ (raise _) => apply respects_raise; exact io_after_refl
  | |- respects _ get_shoes => apply respects_get_shoes; exact io_after_refl
  | |- respects _ get_file => apply respects_get_file; exact io_after_refl
  | |- respects _ (py_float _) => apply respects_py_float; exact io_after_refl
  | |- respects _ (py_int _) => apply respects_py_int; exact io_after_refl
  | |- respects _ (emit _) => apply io_after_emit
  | |- respects _ (input _) => apply io_after_input
  | |- respects _ (ask _ _) => apply io_after_ask
  | |- respects _ (set_shoes _) => intro; apply io_after_data
  | |- respects _ (write_file _) => intro; apply io_after_data
  | |- respects _ (append_file _) => intro; apply io_after_data
  | |- respects _ (match ?x with _ => _ end) => destruct x
  end.

Lemma io_after_capture_shoes : respects io_after capture_shoes.
Proof.
  unfold capture_shoes, Shoe_init, append_shoe, print. repeat io_step.
Qed.

Lemma io_after_re_stock : respects io_after re_stock.
Proof.
  unfold re_stock, restock_by, show_lowest, print. repeat io_step.
Qed.

Lemma io_after_read_shoes_data : respects io_after read_shoes_data.
Proof.
  intro w. rewrite read_shoes_data_cases.
  destruct (inventory_txt w) as [text|]; [destruct (lines_of text) as [|hd body];
    [|destruct (load_pure body []) as [l [e|]]]|];
    cbn [world_of]; (split; cbn; [exists []; reflexivity|]);
    first [eexists; reflexivity | exists []; symmetry; apply app_nil_r].
Qed.

Lemma io_after_main_loop (py_sum : list float -> float) (fuel : nat) :
  respects io_after (main_loop py_sum fuel).
Proof.
  apply respects_main_loop;
    first [ exact io_after_refl | exact io_after_trans | exact io_after_emit
          | exact io_after_input | exact io_after_capture_shoes | exact io_after_re_stock ].
Qed.

Lemma io_after_dispatch (py_sum : list float -> float) (choice : str) :
  respects io_after (dispatch py_sum choice).
Proof.
  apply respects_dispatch;
    first [ exact io_after_refl | exact io_after_trans | exact io_after_emit
          | exact io_after_input | exact io_after_capture_shoes | exact io_after_re_stock ].
Qed.

(** ** The operations that change the data *)

Lemma re_stock_data (w : world) :
  same_data w (world_of (re_stock w)) \/
  exists i lowest add,
    py_min (shoe_list w) = Some (i, lowest) /\ 0 < add /\
    shoe_list (world_of (re_stock w)) = add_quantity_at i add (shoe_list w) /\
    synced (world_of (re_stock w)).
Proof.
  unfold re_stock. run.
  destruct (py_min (shoe_list w)) as [[i lowest]|] eqn:Em.
  2:{ left. split; reflexivity. }
  unfold show_lowest, restock_by. run.
  destruct (stdin w) as [|answer ins]; [left; split; reflexivity|].
  destruct (eqb (lower answer) (s "yes")); [|left; split; reflexivity].
  cbn [stdin]. destruct ins as [|typed rest]; [left; split; reflexivity|].
  unfold py_int. destruct (int_of_str typed) as [add|]; run; [|left; split; reflexivity].
  destruct (0 <? add) eqn:Ea; run; [|left; split; reflexivity].
  right. exists i, lowest, add. apply Z.ltb_lt in Ea.
  repeat split; auto.
Qed.

Lemma valid_store_capture_shoes : respects (keeps valid_store) capture_shoes.
Proof.
  intros w H. unfold valid_store in *.
  destruct (capture_shoes_cases w) as [[w' [E [Hs _]]]|[w' [sh [E [Hs [_ [Hok _]]]]]]];
    rewrite E; cbn [world_of]; rewrite Hs; [exact H|].
  apply Forall_app. split; [exact H|]. constructor; [exact Hok|constructor].
Qed.

Lemma valid_store_re_stock : respects (keeps valid_store) re_stock.
Proof.
  intros w H. unfold valid_store in *.
  destruct (re_stock_data w) as [[Hs _]|[i [lowest [add [_ [Ha [Hs _]]]]]]]; rewrite Hs.
  - exact H.
  - apply add_quantity_at_ok; [lia|exact H].
Qed.

Lemma file_text_snoc (l : list Shoe) (sh : Shoe) :
  file_text (l ++ [sh]) = file_text l ++ line_of sh.
Proof.
  unfold file_text, line_of. rewrite map_app, concat_app. cbn [map concat].
  rewrite app_nil_r, app_assoc. reflexivity.
Qed.

Lemma synced_capture_shoes : respects (keeps synced) capture_shoes.
Proof.
  intros w H. unfold synced in *.
  destruct (capture_shoes_cases w) as [[w' [E [Hs Hf]]]|[w' [sh [E [Hs [Hf _]]]]]];
    rewrite E; cbn [world_of]; rewrite Hs, Hf, H; [reflexivity|].
  cbn [file_or_empty]. rewrite file_text_snoc. reflexivity.
Qed.

Lemma synced_re_stock : respects (keeps synced) re_stock.
Proof.
  intros w H.
  destruct (re_stock_data w) as [[Hs Hf]|[i [lowest [add [_ [_ [_ Hy]]]]]]]; [|exact Hy].
  unfold synced in *. rewrite Hs, Hf. exact H.
Qed.

(* ================================================================== *)
(** * What can be raised *)
(* ================================================================== *)

Section Raises.

Variable P : exn -> world -> Prop.

Lemma raises_weaken {A} (Q : exn -> world -> Prop) (m : M A) :
  (forall e w, Q e w -> P e w) -> raises_only Q m -> raises_only P m.
Proof. intros H Hm w e w' E. apply H. exact (Hm w e w' E). Qed.

Lemma raises_ret {A} (a : A) : raises_only P (ret a).
Proof. intros w e w' E. discriminate. Qed.

Lemma raises_emit (ev : event) : raises_only P (emit ev).
Proof. intros w e w' E. discriminate. Qed.

Lemma raises_get_shoes : raises_only P get_shoes.
Proof. intros w e w' E. discriminate. Qed.

Lemma raises_set_shoes (l : list Shoe) : raises_only P (set_shoes l).
Proof. intros w e w' E. discriminate. Qed.

Lemma raises_write_file (text : str) : raises_only P (write_file text).
Proof. intros w e w' E. discriminate. Qed.

Lemma raises_append_file (text : str) : raises_only P (append_file text).
Proof. intros w e w' E. discriminate. Qed.

Lemma raises_bind {A B} (m : M A) (k : A -> M B) :
  raises_only P m -> (forall a, raises_only P (k a)) -> raises_only P (bind m k).
Proof.
  intros Hm Hk w e w' E. unfold bind in E.
  destruct (m w) as [a w1|e1 w1] eqn:Em.
  - exact (Hk a w1 e w' E).
  - inversion E; subst. exact (Hm w e w' Em).
Qed.

Lemma raises_try {A} (m : M A) (catches : exn_kind -> bool) (h : exn -> M A) :
  raises_only (fun e w => catches (kind e) = true \/ P e w) m ->
  (forall e, raises_only P (h e)) ->
  raises_only P (try_except m catches h).
Proof.
  intros Hm Hh w e w' E. unfold try_except in E.
  destruct (m w) as [a w1|e1 w1] eqn:Em; [discriminate|].
  destruct (catches (kind e1)) eqn:Ec.
  - exact (Hh e1 w1 e w' E).
  - inversion E; subst. destruct (Hm w e w' Em) as [H|H]; [congruence|exact H].
Qed.

End Raises.

Lemma raises_input (prompt : str) : raises_only fatal (input prompt).
Proof.
  intros w e w' E. unfold input in E. destruct (stdin w); inversion E; subst.
  left. split; reflexivity.
Qed.

Lemma raises_ask {A} (prompt : str) (check : str -> A + str) :
  raises_only fatal (ask prompt check).
Proof.
  intros w e w' E. unfold ask in E.
  destruct (prompt_until prompt check (stdin w)) as [shown [[a rest]|]];
    inversion E; subst.
  left. split; reflexivity.
Qed.

Lemma fatal_fatal_or (catches : exn_kind -> bool) (e : exn) (w : world) :
  fatal e w -> fatal_or catches e w.
Proof. intro H. right. exact H. Qed.

Ltac raises_step :=
  lazymatch goal with
  | |- raises_only _ (bind _ _) => apply raises_bind; [ | intro]
  | |- raises_only _ (try_except _ _ _) => apply raises_try; [ | intro]
  | |- raises_only _ (ret _) => apply raises_ret
  | |- raises_only _ (emit _) => apply raises_emit
  | |- raises_only _ get_shoes => apply raises_get_shoes
  | |- raises_only _ (set_shoes _) => apply raises_set_shoes
  | |- raises_only _ (write_file _) => apply raises_write_file
  | |- raises_only _ (append_file _) => apply raises_append_file
  | |- raises_only fatal (input _) => apply raises_input
  | |- raises_only fatal (ask _ _) => apply raises_ask
  | |- raises_only _ (input _) =>
      apply raises_weaken with (Q := fatal);
      [intros ? ?; apply fatal_fatal_or | apply raises_input]
  | |- raises_only _ (ask _ _) =>
      apply raises_weaken with (Q := fatal);
      [intros ? ?; apply fatal_fatal_or | apply raises_ask]
  | |- raises_only _ (match ?x with _ => _ end) => destruct x
  end.

Lemma raises_capture_shoes : raises_only fatal capture_shoes.
Proof.
  unfold capture_shoes, Shoe_init, append_shoe, print. cbn [py_float py_int].
  repeat raises_step.
Qed.

Lemma raises_re_stock : raises_only fatal re_stock.
Proof.
  unfold re_stock, restock_by, show_lowest, print. 
  apply raises_bind; [repeat raises_step | intro l].
  destruct (py_min l) as [[i lowest]|]; [|repeat raises_step].
  apply raises_bind; [repeat raises_step | intros _].
  apply raises_bind; [repeat raises_step | intro answer].
  destruct (eqb (lower answer) (s "yes")); [|repeat raises_step].
  apply raises_try; [|intro; repeat raises_step].
  fold (fatal_or only_ValueError).
  apply raises_bind; [repeat raises_step | intro typed].
  apply raises_bind; [|intro add; repeat raises_step].
  intros w e w' E. cbn [py_int] in E.
  destruct (int_of_str typed); inversion E; subst. left. reflexivity.
Qed.

Lemma raises_view_all : raises_only fatal view_all.
Proof. unfold view_all, print. repeat raises_step. Qed.

Lemma raises_search_shoe : raises_only fatal search_shoe.
Proof. unfold search_shoe, show_found, print. repeat raises_step. Qed.

Lemma raises_highest_qty : raises_only fatal highest_qty.
Proof. unfold highest_qty, show_highest, print. repeat raises_step. Qed.

Lemma raises_menu : raises_only fatal menu.
Proof. unfold menu, print. repeat raises_step. Qed.

(** ** Quantities beyond the range of binary64 *)

Lemma item_value_cases (sh : Shoe) (w : world) :
  item_value sh w =
  match float_of_int (quantity sh) with
  | Some q => Return (fmul (cost sh) q) w
  | None => Raise overflow w
  end.
Proof.
  unfold item_value, py_float, bind. destruct (float_of_int (quantity sh)); reflexivity.
Qed.

Lemma fits_float_dec (sh : Shoe) : {fits_float sh} + {~ fits_float sh}.
Proof.
  unfold fits_float. destruct (float_of_int (quantity sh)).
  - left. discriminate.
  - right. intro H. apply H. reflexivity.
Qed.

Lemma Forall_fits_dec (l : list Shoe) : {Forall fits_float l} + {~ Forall fits_float l}.
Proof. apply Forall_dec. exact fits_float_dec. Qed.

Lemma value_rows_cases (l : list Shoe) (w : world) :
  (Forall fits_float l /\
   value_rows l w = Return (map (fun sh => value_row sh (or_nan (value_of sh))) l) w) \/
  (~ Forall fits_float l /\ value_rows l w = Raise overflow w).
Proof.
  induction l as [|sh l IH]; cbn [value_rows map].
  - left. split; [constructor|reflexivity].
  - unfold bind. rewrite item_value_cases. unfold value_of, fits_float in *.
    destruct (float_of_int (quantity sh)) as [q|] eqn:Eq.
    + destruct IH as [[Hf E]|[Hf E]]; rewrite E.
      * left. split; [constructor; [congruence|exact Hf]|reflexivity].
      * right. split; [|reflexivity]. intro H. inversion H; auto.
    + right. split; [|reflexivity]. intro H. inversion H; subst. congruence.
Qed.

Lemma item_values_cases (l : list Shoe) (w : world) :
  (Forall fits_float l /\
   item_values l w = Return (map (fun sh => or_nan (value_of sh)) l) w) \/
  (~ Forall fits_float l /\ item_values l w = Raise overflow w).
Proof.
  induction l as [|sh l IH]; cbn [item_values map].
  - left. split; [constructor|reflexivity].
  - unfold bind. rewrite item_value_cases. unfold value_of, fits_float in *.
    destruct (float_of_int (quantity sh)) as [q|] eqn:Eq.
    + destruct IH as [[Hf E]|[Hf E]]; rewrite E.
      * left. split; [constructor; [congruence|exact Hf]|reflexivity].
      * right. split; [|reflexivity]. intro H. inversion H; auto.
    + right. split; [|reflexivity]. intro H. inversion H; subst. congruence.
Qed.

Lemma tally_all_overflow (l : list Shoe) :
  forall (d : dict) (w : world),
    ~ Forall fits_float l -> tally_all d l w = Raise overflow w.
Proof.
  induction l as [|sh l IH]; intros d w H; [destruct H; constructor|].
  cbn [tally_all]. unfold bind at 1. unfold tally, py_float, bind.
  destruct (float_of_int (quantity sh)) as [q|] eqn:Eq; [|reflexivity].
  unfold ret. apply IH. intro Hl. apply H. constructor; [|exact Hl].
  unfold fits_float. congruence.
Qed.

(** The three reports that multiply cost by quantity, on a store that
    holds a quantity beyond the range of binary64. *)
Lemma reports_overflow (py_sum : list float -> float) (w : world) :
  ~ Forall fits_float (shoe_list w) ->
  value_per_item w = Raise overflow w /\
  stock_by_country w = Raise overflow w /\
  total_warehouse_value py_sum w = Raise overflow w.
Proof.
  intro H. unfold value_per_item, stock_by_country, total_warehouse_value. run.
  destruct (shoe_list w) as [|sh l] eqn:El; [destruct H; constructor|].
  rewrite <- El in *.
  destruct (value_rows_cases (shoe_list w) w) as [[Hf _]|[_ E1]]; [contradiction|].
  destruct (item_values_cases (shoe_list w) w) as [[Hf _]|[_ E2]]; [contradiction|].
  rewrite E1, E2, (tally_all_overflow [] w H). repeat split.
Qed.

Lemma reports_return (py_sum : list float -> float) (w : world) :
  shoe_list w <> [] ->
  Forall fits_float (shoe_list w) ->
  let l := shoe_list w in
  let after shown := mkWorld l (inventory_txt w) (stdin w) (stdout w ++ shown) in
  value_per_item w =
    Return tt (after [Print (LF :: s "=== Product Values ===");
                      Tabulate value_headers
                        (map (fun sh => value_row sh (or_nan (value_of sh))) l)]) /\
  total_warehouse_value py_sum w =
    Return tt (after [Print (LF :: s "=== TOTAL WAREHOUSE VALUE ===");
                      Print (money (py_sum (map (fun sh => or_nan (value_of sh)) l)))]).
Proof.
  intros Hne H l after. subst l after.
  unfold value_per_item, total_warehouse_value. run.
  destruct (shoe_list w) as [|sh l] eqn:El; [congruence|].
  rewrite <- El in *.
  destruct (value_rows_cases (shoe_list w) w) as [[_ E1]|[Hf _]]; [|contradiction].
  destruct (item_values_cases (shoe_list w) w) as [[_ E2]|[Hf _]]; [|contradiction].
  rewrite E1, E2. cbn [shoe_list inventory_txt stdin stdout].
  rewrite <- !app_assoc. split; reflexivity.
Qed.

Lemma raises_reports (py_sum : list float -> float) :
  raises_only fatal value_per_item /\
  raises_only fatal stock_by_country /\
  raises_only fatal (total_warehouse_value py_sum).
Proof.
  assert (G : forall m : M unit,
             (forall w, shoe_list w = [] -> exists w', m w = Return tt w') ->
             (forall w, shoe_list w <> [] -> Forall fits_float (shoe_list w) ->
                        exists w', m w = Return tt w') ->
             (forall w, ~ Forall fits_float (shoe_list w) -> m w = Raise overflow w) ->
             raises_only fatal m).
  { intros m H0 H1 H2 w e w' E.
    destruct (Forall_fits_dec (shoe_list w)) as [Hf|Hf].
    - destruct (shoe_list w) as [|sh l] eqn:El.
      + destruct (H0 w El) as [w1 E1]. congruence.
      + destruct (H1 w) as [w1 E1]; [congruence|rewrite El; exact Hf|congruence].
    - rewrite (H2 w Hf) in E. inversion E; subst. right. split; [reflexivity|exact Hf]. }
  repeat split; apply G.
  - intros w E. unfold value_per_item. run. rewrite E. eexists. reflexivity.
  - intros w Hne Hf. destruct (@reports_return py_sum w Hne Hf) as [E _]. eexists. exact E.
  - intros w Hf. apply (@reports_overflow py_sum w Hf).
  - intros w E. unfold stock_by_country. run. rewrite E. eexists. reflexivity.
  - intros w Hne Hf. rewrite (@stock_by_country_rows w Hne Hf). eexists. reflexivity.
  - intros w Hf. apply (@reports_overflow py_sum w Hf).
  - intros w E. unfold total_warehouse_value. run. rewrite E. eexists. reflexivity.
  - intros w Hne Hf. destruct (@reports_return py_sum w Hne Hf) as [_ E]. eexists. exact E.
  - intros w Hf. apply (@reports_overflow py_sum w Hf).
Qed.

(* ================================================================== *)
(** * The menu *)
(* ================================================================== *)

Lemma menu_round_cases (py_sum : list float -> float) (w : world) :
  menu_round py_sum w =
  match stdin w with
  | [] => Raise end_of_input (chosen w [])
  | typed :: rest => dispatch py_sum (strip typed) (chosen w rest)
  end.
Proof.
  destruct w as [l f ins out]. cbn [stdin].
  destruct ins as [|typed rest];
    cbv [menu_round menu bind print emit input ret chosen menu_shown
         shoe_list inventory_txt stdin stdout];
    rewrite <- !app_assoc; reflexivity.
Qed.

Lemma not_stopped {A} (m : M A) (w w' : world) :
  (m ;; ret false) w = Return true w' -> False.
Proof. unfold bind, ret. destruct (m w); discriminate. Qed.

Lemma dispatch_stop (py_sum : list float -> float) (choice : str) (w w' : world) :
  dispatch py_sum choice w = Return true w' ->
  choice = s "9" /\ w' = printed w farewell.
Proof.
  unfold dispatch.
  repeat match goal with
         | |- (if ?c then _ else _) _ = _ -> _ => destruct c eqn:?
         end;
    try (intro H; destruct (not_stopped _ _ H)).
  intro H. unfold print, emit, bind, ret in H. inversion H.
  split; [apply eqb_eq; assumption|reflexivity].
Qed.

Lemma raises_dispatch (py_sum : list float -> float) (choice : str) :
  raises_only fatal (dispatch py_sum choice).
Proof.
  destruct (raises_reports py_sum) as [Hv [Hs Ht]].
  unfold dispatch.
  repeat match goal with
         | |- raises_only _ (if ?c then _ else _) => destruct c
         end;
    (apply raises_bind; [|intro; apply raises_ret]);
    first [ assumption
          | apply raises_capture_shoes
          | apply raises_view_all
          | apply raises_re_stock
          | apply raises_search_shoe
          | apply raises_highest_qty
          | apply raises_emit ].
Qed.

Lemma main_loop_ends (py_sum : list float -> float) (fuel : nat) :
  forall w,
    (length (stdin w) < fuel)%nat ->
    (exists w', main_loop py_sum fuel w = Return true w' /\
                exists shown, stdout w' = shown ++ [Print farewell]) \/
    (exists e w', main_loop py_sum fuel w = Raise e w' /\ fatal e w').
Proof.
  induction fuel as [|f IH]; intros w Hlen; [lia|].
  cbn [main_loop].
  assert (E : forall k : bool -> M bool,
             bind (menu_round py_sum) k w =
             match stdin w with
             | [] => Raise end_of_input (chosen w [])
             | typed :: rest =>
                 match dispatch py_sum (strip typed) (chosen w rest) with
                 | Return a w' => k a w'
                 | Raise e w' => Raise e w'
                 end
             end).
  { intro k. unfold bind. rewrite menu_round_cases. destruct (stdin w); reflexivity. }
  rewrite E. clear E.
  destruct (stdin w) as [|typed rest] eqn:Ein.
  - right. exists end_of_input, (chosen w []). split; [reflexivity|].
    left. split; reflexivity.
  - destruct (dispatch py_sum (strip typed) (chosen w rest)) as [[|] w1|e w1] eqn:Ed.
    + left. exists w1. split; [reflexivity|].
      destruct (dispatch_stop _ _ _ Ed) as [_ ->]. eexists. reflexivity.
    + apply IH.
      pose proof (io_after_dispatch py_sum (strip typed) (chosen w rest)) as [[used Hu] _].
      rewrite Ed in Hu. cbn [world_of chosen stdin] in Hu.
      cbn [length] in Hlen. rewrite Hu, length_app in Hlen. lia.
    + right. exists e, w1. split; [reflexivity|]. exact (@raises_dispatch py_sum _ _ _ _ Ed).
Qed.

Lemma main_load_returns (w : world) :
  exists w1,
    main_load w = Return tt w1 /\
    shoe_list w1 = loaded_from (inventory_txt w) /\
    inventory_txt w1 = Some (match inventory_txt w with
                             | Some text => text
                             | None => header
                             end) /\
    stdin w1 = stdin w.
Proof.
  unfold main_load, loaded_from. unfold bind at 1. rewrite !read_shoes_data_cases.
  cbn [inventory_txt].
  destruct (inventory_txt w) as [text|]; [destruct (lines_of text) as [|hd body];
    [|destruct (load_pure body []) as [l [e|]]]|];
    run; eexists; repeat split.
Qed.

Lemma main_unfold (py_sum : list float -> float) (w : world) :
  exists w1,
    main_load w = Return tt w1 /\
    main py_sum w = main_loop py_sum (S (length (stdin w1))) w1.
Proof.
  destruct (main_load_returns w) as [w1 [E _]]. exists w1. split; [exact E|].
  unfold main, bind. rewrite E. reflexivity.
Qed.


(* ================================================================== *)
(** * What the menu keeps *)
(* ================================================================== *)

Lemma keeps_main (P : world -> Prop) (py_sum : list float -> float) :
  console_only (keeps P) ->
  respects (keeps P) capture_shoes ->
  respects (keeps P) re_stock ->
  forall w w1,
    main_load w = Return tt w1 -> P w1 -> P (world_of (main py_sum w)).
Proof.
  intros Hc Hcap Hre w w1 E H.
  destruct (main_unfold py_sum w) as [w1' [E' ->]].
  assert (w1' = w1) by congruence. subst w1'.
  apply (@respects_main_loop (keeps P)); auto using keeps_refl, console_emit, console_input.
  apply keeps_trans.
Qed.

(** X14: when the records the file gives are valid (positive cost,
    quantity not negative), every record of the store is valid when
    [main] ends, however it ends and whatever was typed. *)
Theorem main_keeps_records_valid (py_sum : list float -> float) (w : world) :
  Forall shoe_ok (loaded_from (inventory_txt w)) ->
  Forall shoe_ok (shoe_list (world_of (main py_sum w))).
Proof.
  intro H. destruct (main_load_returns w) as [w1 [E [Hs _]]].
  apply (@keeps_main valid_store py_sum valid_store_console
           valid_store_capture_shoes valid_store_re_stock w w1 E).
  unfold valid_store. rewrite Hs. exact H.
Qed.

Lemma main_keeps_records_valid_witness :
  Forall shoe_ok (loaded_from (Some mixed_file)) /\
  Forall shoe_ok
    (shoe_list (world_of (main sum_left
       (mkWorld [] (Some mixed_file)
          (console ["1"; "ZA"; "zom004"; "Zoom"; "-1"; "120.5"; "9"; "3"; "yes"; "4"; "9"]%string)
          [])))).
Proof.
  assert (H : Forall shoe_ok (loaded_from (Some mixed_file))).
  { vm_compute. repeat constructor; intro; discriminate. }
  split; [exact H|].
  exact (@main_keeps_records_valid sum_left
           (mkWorld [] (Some mixed_file)
              (console ["1"; "ZA"; "zom004"; "Zoom"; "-1"; "120.5"; "9"; "3"; "yes"; "4"; "9"]%string)
              []) H).
Defined.

Lemma file_text_nil : file_text [] = header.
Proof. unfold file_text. cbn [map concat]. apply app_nil_r. Qed.



Lemma same_data_reports (py_sum : list float -> float) :
  respects same_data view_all /\
  respects same_data search_shoe /\
  respects same_data value_per_item /\
  respects same_data highest_qty /\
  respects same_data stock_by_country /\
  respects same_data (total_warehouse_value py_sum).
Proof.
  pose proof same_data_refl as Hr. pose proof same_data_trans as Ht.
  pose proof (console_emit same_data_console) as He.
  pose proof (console_input same_data_console) as Hi.
  repeat apply conj.
  - apply respects_view_all; assumption.
  - apply respects_search_shoe; assumption.
  - apply respects_value_per_item; assumption.
  - apply respects_highest_qty; assumption.
  - apply respects_stock_by_country; assumption.
  - apply respects_total_warehouse_value; assumption.
Qed.

(** X9: the six reports (all shoes, search, product values, highest
    quantity, stock by country, total value) leave the store and the
    file as they were, whether they return or raise. *)
Theorem reports_leave_data_alone (py_sum : list float -> float) (w : world) :
  same_data w (world_of (view_all w)) /\
  same_data w (world_of (search_shoe w)) /\
  same_data w (world_of (value_per_item w)) /\
  same_data w (world_of (highest_qty w)) /\
  same_data w (world_of (stock_by_country w)) /\
  same_data w (world_of (total_warehouse_value py_sum w)).
Proof.
  destruct (same_data_reports py_sum) as [H1 [H2 [H3 [H4 [H5 H6]]]]].
  exact (conj (H1 w) (conj (H2 w) (conj (H3 w) (conj (H4 w) (conj (H5 w) (H6 w)))))).
Qed.

(** X16: a round of the menu whose choice is neither 1 (add) nor 3
    (restock) leaves the store and the file as they were, whatever the
    choice is and however the round ends. *)
Theorem only_add_and_restock_change_data
  (py_sum : list float -> float) (choice : str) (w : world) :
  choice <> s "1" -> choice <> s "3" ->
  shoe_list (world_of (dispatch py_sum choice w)) = shoe_list w /\
  inventory_txt (world_of (dispatch py_sum choice w)) = inventory_txt w.
Proof.
  intros H1 H3.
  destruct (same_data_reports py_sum) as [G1 [G2 [G3 [G4 [G5 G6]]]]].
  assert (G : respects same_data (dispatch py_sum choice)).
  { unfold dispatch.
    destruct (eqb choice (s "1")) eqn:E1; [apply eqb_eq in E1; contradiction|].
    destruct (eqb choice (s "2")).
    { apply respects_bind; [exact same_data_trans|exact G1|intro; apply respects_ret; exact same_data_refl]. }
    destruct (eqb choice (s "3")) eqn:E3; [apply eqb_eq in E3; contradiction|].
    repeat match goal with
           | |- respects _ (if ?c then _ else _) => destruct c
           end;
      (apply respects_bind;
       [exact same_data_trans| |intro; apply respects_ret; exact same_data_refl]);
      first [assumption | apply (console_emit same_data_console)]. }
  exact (G w).
Qed.

Lemma only_add_and_restock_change_data_witness :
  s "7" <> s "1" /\ s "7" <> s "3" /\
  shoe_list (world_of (dispatch sum_left (s "7") (huge_world []))) =
    shoe_list (huge_world []) /\
  inventory_txt (world_of (dispatch sum_left (s "7") (huge_world []))) =
    inventory_txt (huge_world []).
Proof.
  assert (H1 : s "7" <> s "1") by (vm_compute; discriminate).
  assert (H3 : s "7" <> s "3") by (vm_compute; discriminate).
  split; [exact H1|]. split; [exact H3|].
  exact (@only_add_and_restock_change_data sum_left (s "7") (huge_world []) H1 H3).
Defined.

(* ================================================================== *)
(** * Edge cases of the operations *)
(* ================================================================== *)

(** X10: on an empty store each of the seven operations that need
    records prints [No shoes in inventory] and does nothing else: it
    reads no input and leaves the store and the file as they were. *)
Theorem empty_store_is_reported (py_sum : list float -> float) (w : world) :
  shoe_list w = [] ->
  let told := Return tt (printed w (s "No shoes in inventory")) in
  view_all w = told /\
  re_stock w = told /\
  search_shoe w = told /\
  value_per_item w = told /\
  highest_qty w = told /\
  stock_by_country w = told /\
  total_warehouse_value py_sum w = told.
Proof.
  destruct w as [l f ins out]. cbn [shoe_list]. intro H. subst l. cbv zeta.
  repeat apply conj; reflexivity.
Qed.

Lemma empty_store_is_reported_witness :
  shoe_list empty_world = [] /\
  view_all empty_world = Return tt (printed empty_world (s "No shoes in inventory")) /\
  re_stock empty_world = Return tt (printed empty_world (s "No shoes in inventory")).
Proof.
  split; [reflexivity|].
  pose proof (@empty_store_is_reported sum_left empty_world eq_refl) as H.
  cbv zeta in H. destruct H as [H1 [H2 _]]. split; [exact H1|exact H2].
Defined.

(** X11: the three reports that multiply cost by quantity (product
    values, stock by country, total value) return exactly when every
    quantity of the store converts to a float; otherwise each raises
    [OverflowError] before it has printed anything. *)
Theorem value_reports_fail_on_huge_quantity (py_sum : list float -> float) (w : world) :
  (returns (value_per_item w) <-> Forall fits_float (shoe_list w)) /\
  (returns (stock_by_country w) <-> Forall fits_float (shoe_list w)) /\
  (returns (total_warehouse_value py_sum w) <-> Forall fits_float (shoe_list w)) /\
  (~ Forall fits_float (shoe_list w) ->
   value_per_item w = Raise overflow w /\
   stock_by_country w = Raise overflow w /\
   total_warehouse_value py_sum w = Raise overflow w).
Proof.
  assert (G : forall m : M unit,
             (shoe_list w = [] -> returns (m w)) ->
             (shoe_list w <> [] -> Forall fits_float (shoe_list w) -> returns (m w)) ->
             (~ Forall fits_float (shoe_list w) -> m w = Raise overflow w) ->
             (returns (m w) <-> Forall fits_float (shoe_list w))).
  { intros m H0 H1 H2. split.
    - intros [a [w' E]]. destruct (Forall_fits_dec (shoe_list w)) as [Hf|Hf]; [exact Hf|].
      rewrite (H2 Hf) in E. discriminate.
    - intro Hf. destruct (shoe_list w) as [|sh l] eqn:El; [apply H0; reflexivity|].
      apply H1; [discriminate|exact Hf]. }
  pose proof (@reports_overflow py_sum w) as Ho.
  split; [|split; [|split]].
  - apply (G value_per_item).
    + intro E. clear G Ho. destruct w as [l f ins out]. cbn [shoe_list] in E. subst l.
      eexists _, _. reflexivity.
    + intros Hne Hf. destruct (@reports_return py_sum w Hne Hf) as [E _].
      eexists _, _. exact E.
    + intro Hf. apply (Ho Hf).
  - apply (G stock_by_country).
    + intro E. clear G Ho. destruct w as [l f ins out]. cbn [shoe_list] in E. subst l.
      eexists _, _. reflexivity.
    + intros Hne Hf. rewrite (@stock_by_country_rows w Hne Hf). eexists _, _. reflexivity.
    + intro Hf. apply (Ho Hf).
  - apply (G (total_warehouse_value py_sum)).
    + intro E. clear G Ho. destruct w as [l f ins out]. cbn [shoe_list] in E. subst l.
      eexists _, _. reflexivity.
    + intros Hne Hf. destruct (@reports_return py_sum w Hne Hf) as [_ E].
      eexists _, _. exact E.
    + intro Hf. apply (Ho Hf).
  - exact Ho.
Qed.



Lemma add_quantity_at_writable (i : nat) (add : Z) (l : list Shoe) :
  Forall writable l -> Forall writable (add_quantity_at i add l).
Proof.
  intro H; revert i; induction H as [|sh rest Hw Hrest IH]; intros [|i]; cbn.
  - constructor.
  - constructor.
  - constructor; [|assumption]. exact Hw.
  - constructor; [assumption|apply IH].
Qed.



(* ================================================================== *)
(** * Adding a shoe, entry by entry *)
(* ================================================================== *)

Lemma prompt_until_first {A} (prompt : str) (check : str -> A + str)
      (bads : list str) (good : str) (a : A) (rest : list str) :
  Forall (refused check) bads -> check good = inl a ->
  exists shown,
    prompt_until prompt check (bads ++ good :: rest) = (shown, Some (a, rest)).
Proof.
  intros Hb Hg. induction Hb as [|x bads [complaint Hx] Hb IH]; cbn.
  - rewrite Hg. eexists. reflexivity.
  - rewrite Hx. destruct IH as [shown ->]. eexists. reflexivity.
Qed.



Lemma find_code_in (sh : Shoe) (l : list Shoe) :
  In sh l ->
  exists found, find_code (code sh) l = Some found /\ code found = code sh /\ In found l.
Proof.
  induction l as [|x l IH]; intro H; [destruct H|]. cbn [find_code].
  destruct (eqb (code x) (code sh)) eqn:E.
  - exists x. apply eqb_eq in E. repeat split; [exact E|left; reflexivity].
  - destruct H as [->|H]; [rewrite eqb_refl in E; discriminate|].
    destruct (IH H) as [found [H1 [H2 H3]]]. exists found.
    repeat split; [exact H1|exact H2|right; exact H3].
Qed.

Lemma find_code_fresh (sh : Shoe) (l : list Shoe) :
  Forall (fun t => code t <> code sh) l -> find_code (code sh) (l ++ [sh]) = Some sh.
Proof.
  induction 1 as [|x l Hx Hl IH]; cbn [find_code app].
  - rewrite eqb_refl. reflexivity.
  - apply eqb_neq in Hx. rewrite Hx. exact IH.
Qed.



(* ================================================================== *)
(** * The loader, from the first run on *)
(* ================================================================== *)

Lemma lines_of_header : lines_of header = [header].
Proof. vm_compute. reflexivity. Qed.

(** X1: when the file does not exist, the first step of [main] creates
    it with the header line alone, says so, and starts with an empty
    store; from a file that holds the header alone the same step loads
    no record and announces 0 shoes. *)
Theorem first_run_creates_the_file (w : world) :
  inventory_txt w = None ->
  main_load w =
    Return tt (mkWorld [] (Some header) (stdin w)
                 (stdout w ++ [Print (s "Created new inventory file");
                               Print (LF :: s "Starting with empty inventory")])) /\
  forall w2, inventory_txt w2 = Some header ->
    main_load w2 =
    Return tt (mkWorld [] (Some header) (stdin w2)
                 (stdout w2 ++ [Print (LF :: s "Loaded 0 shoes from inventory")])).
Proof.
  intro H. split.
  - unfold main_load. unfold bind at 1. rewrite read_shoes_data_cases, H. run.
    rewrite <- app_assoc. reflexivity.
  - intros w2 H2. unfold main_load. unfold bind at 1.
    rewrite read_shoes_data_cases, H2, lines_of_header. cbn [load_pure]. run.
    reflexivity.
Qed.

Lemma first_run_creates_the_file_witness :
  main_load (mkWorld four_shoes None [] []) =
    Return tt (mkWorld [] (Some header) []
                 ([] ++ [Print (s "Created new inventory file");
                         Print (LF :: s "Starting with empty inventory")])) /\
  forall w2, inventory_txt w2 = Some header ->
    main_load w2 =
    Return tt (mkWorld [] (Some header) (stdin w2)
                 (stdout w2 ++ [Print (LF :: s "Loaded 0 shoes from inventory")])).
Proof.
  exact (@first_run_creates_the_file (mkWorld four_shoes None [] []) eq_refl).
Defined.

Lemma five_fields_record (line : str) :
  five_fields line = false -> record_of_line line = None.
Proof.
  unfold five_fields, record_of_line. split_fields line; try reflexivity.
  cbn. discriminate.
Qed.

Lemma effect_loadable (line : str) :
  loadable line <-> forall e, effect_of_line line <> Failed e.
Proof.
  split.
  - intros H e E. apply loadable_effect in H.
    destruct (record_of_line line); rewrite H in E; discriminate.
  - intros H Hf Hr. destruct (effect_failed line Hf Hr) as [e [E _]].
    exact (H e E).
Qed.

Lemma load_pure_none (ls : list str) :
  forall acc l, load_pure ls acc = (l, None) -> Forall loadable ls.
Proof.
  induction ls as [|line rest IH]; intros acc l H; [constructor|].
  cbn [load_pure] in H.
  destruct (effect_of_line line) as [|sh|e] eqn:E.
  - constructor; [|exact (IH _ _ H)]. apply effect_loadable. intros e E'. congruence.
  - constructor; [|exact (IH _ _ H)]. apply effect_loadable. intros e E'. congruence.
  - discriminate.
Qed.


(** X3: the first line of the file is never loaded, whatever it holds:
    two files that differ in their first line only give the same store
    and the same result. *)
Theorem first_line_is_never_loaded
  (w1 w2 : world) (t1 t2 h1 h2 : str) (body : list str) :
  inventory_txt w1 = Some t1 -> lines_of t1 = h1 :: body ->
  inventory_txt w2 = Some t2 -> lines_of t2 = h2 :: body ->
  shoe_list (world_of (read_shoes_data w1)) = shoe_list (world_of (read_shoes_data w2)) /\
  forall ok, (exists w', read_shoes_data w1 = Return ok w') <->
             (exists w', read_shoes_data w2 = Return ok w').
Proof.
  intros F1 L1 F2 L2. rewrite !read_shoes_data_cases, F1, F2, L1, L2.
  destruct (load_pure body []) as [l [e|]]; cbn [world_of shoe_list].
  - split; [reflexivity|]. intro ok.
    split; intros [w' E]; inversion E; eexists; reflexivity.
  - split; [reflexivity|]. intro ok.
    split; intros [w' E]; inversion E; eexists; reflexivity.
Qed.

Lemma first_line_is_never_loaded_witness :
  shoe_list (world_of (read_shoes_data (mkWorld [] (Some headless_file) [] []))) =
  shoe_list (world_of (read_shoes_data (mkWorld [] (Some headed_file) [] []))) /\
  shoe_list (world_of (read_shoes_data (mkWorld [] (Some headless_file) [] []))) =
  [shoe "US" "JRD002" "Jordan" "200.0" 3].
Proof.
  split; [|vm_compute; reflexivity].
  apply (@first_line_is_never_loaded
           (mkWorld [] (Some headless_file) [] []) (mkWorld [] (Some headed_file) [] [])
           headless_file headed_file (s "ZA,AIR001,Air Max,150.0,10") header
           [s "US,JRD002,Jordan,200.0,3"]).
  - reflexivity.
  - vm_compute. reflexivity.
  - reflexivity.
  - vm_compute. reflexivity.
Defined.

Lemma records_of_count (ls : list str) :
  Forall loadable ls -> length (records_of ls) = length (filter five_fields ls).
Proof.
  induction 1 as [|line rest Hl Hrest IH]; [reflexivity|].
  cbn [records_of filter]. destruct (five_fields line) eqn:E.
  - destruct (record_of_line line) eqn:Er; [|destruct (Hl E Er)].
    cbn [length]. rewrite IH. reflexivity.
  - rewrite (five_fields_record line E). exact IH.
Qed.



(* ================================================================== *)
(** * The report by country accounts for every record *)
(* ================================================================== *)

Section Totals.

Variable g : Shoe -> Z.

Lemma weigh_group_cons (c : str) (sh : Shoe) (l : list Shoe) :
  weigh g (group c (sh :: l)) =
  (if eqb (country sh) c then g sh else 0) + weigh g (group c l).
Proof.
  unfold group. cbn [filter]. destruct (eqb (country sh) c); reflexivity.
Qed.

Lemma sum_split (a b : str -> Z) (ks : list str) :
  fold_right (fun c acc => (a c + b c) + acc) 0 ks =
  fold_right (fun c acc => a c + acc) 0 ks + fold_right (fun c acc => b c + acc) 0 ks.
Proof. induction ks as [|k ks IH]; cbn [fold_right]; lia. Qed.

Lemma sum_ext (a b : str -> Z) (ks : list str) :
  (forall c, a c = b c) ->
  fold_right (fun c acc => a c + acc) 0 ks = fold_right (fun c acc => b c + acc) 0 ks.
Proof. intro H. induction ks as [|k ks IH]; cbn [fold_right]; [|rewrite H, IH]; reflexivity. Qed.

Lemma count_none (k : str) (x : Z) (ks : list str) :
  ~ In k ks -> fold_right (fun c acc => (if eqb k c then x else 0) + acc) 0 ks = 0.
Proof.
  induction ks as [|c ks IH]; intro H; cbn [fold_right]; [reflexivity|].
  destruct (eqb k c) eqn:E.
  - apply eqb_eq in E. destruct H. left. congruence.
  - rewrite IH; [reflexivity|]. intro H'. apply H. right. exact H'.
Qed.

Lemma count_one (k : str) (x : Z) (ks : list str) :
  NoDup ks -> In k ks ->
  fold_right (fun c acc => (if eqb k c then x else 0) + acc) 0 ks = x.
Proof.
  induction 1 as [|c ks Hc Hn IH]; intro H; [destruct H|]. cbn [fold_right].
  destruct (eqb k c) eqn:E.
  - apply eqb_eq in E. subst c. rewrite (@count_none k x ks Hc). lia.
  - destruct H as [H|H]; [apply eqb_neq in E; congruence|]. rewrite (IH H). lia.
Qed.

Lemma sum_over_groups (ks : list str) (l : list Shoe) :
  NoDup ks -> (forall sh, In sh l -> In (country sh) ks) ->
  fold_right (fun c acc => weigh g (group c l) + acc) 0 ks = weigh g l.
Proof.
  intros Hn. induction l as [|sh l IH]; intro H.
  - cbn. clear. induction ks as [|k ks IH]; cbn [fold_right]; lia.
  - rewrite (@sum_ext _ _ ks (fun c => weigh_group_cons c sh l)).
    rewrite (@sum_split (fun c => if eqb (country sh) c then g sh else 0)
                        (fun c => weigh g (group c l)) ks).
    rewrite IH by (intros sh' H'; apply H; right; exact H').
    rewrite (@count_one (country sh) (g sh) ks Hn) by (apply H; left; reflexivity).
    reflexivity.
Qed.

End Totals.

Lemma sum_quantities_weigh (l : list Shoe) : sum_quantities l = weigh quantity l.
Proof.
  unfold sum_quantities.
  assert (G : forall a, fold_left (fun acc sh => acc + quantity sh) l a = a + weigh quantity l).
  { induction l as [|sh l IH]; intro a; cbn [fold_left weigh fold_right]; [lia|].
    rewrite IH. unfold weigh. lia. }
  rewrite G. lia.
Qed.

Lemma length_weigh (l : list Shoe) : Z.of_nat (length l) = weigh (fun _ => 1) l.
Proof.
  induction l as [|sh l IH]; [reflexivity|].
  cbn [length weigh fold_right]. unfold weigh in IH. lia.
Qed.

Lemma sum_rows_map (f : row -> Z) (h : str -> row) (ks : list str) :
  sum_rows f (map h ks) = fold_right (fun c acc => f (h c) + acc) 0 ks.
Proof. induction ks as [|k ks IH]; cbn; [|rewrite <- IH]; reflexivity. Qed.

Lemma sum_rows_perm (f : row -> Z) (a b : list row) :
  Permutation a b -> sum_rows f a = sum_rows f b.
Proof. unfold sum_rows. induction 1; cbn [fold_right]; lia. Qed.

Lemma by_country_countries (l : list Shoe) :
  map row_country (by_country l) = first_seen (map country l).
Proof.
  unfold by_country. rewrite map_map. cbn [group_row row_country]. apply map_id.
Qed.

Lemma by_country_totals (l : list Shoe) :
  sum_rows row_products (by_country l) = Z.of_nat (length l) /\
  sum_rows row_quantity (by_country l) = weigh quantity l.
Proof.
  assert (Hin : forall sh, In sh l -> In (country sh) (first_seen (map country l))).
  { intros sh H. apply in_first_seen. apply in_map. exact H. }
  unfold by_country. rewrite !sum_rows_map. cbn [group_row row_products row_quantity]. split.
  - rewrite length_weigh, <- (@sum_over_groups (fun _ => 1) _ l (first_seen_nodup _) Hin).
    apply sum_ext. intro c. apply length_weigh.
  - rewrite <- (@sum_over_groups quantity _ l (first_seen_nodup _) Hin).
    apply sum_ext. intro c. apply sum_quantities_weigh.
Qed.

(** X12: when every quantity converts to a float, the report by country
    shows each country of the store in exactly one row; a row holds the
    number of records of its country and the sum of their quantities;
    and over all rows the record counts add up to the number of records
    and the quantities to the total quantity of the store. *)
Theorem report_accounts_for_every_record (w : world) :
  shoe_list w <> [] ->
  Forall fits_float (shoe_list w) ->
  exists rows,
    stock_by_country w = Return tt (reported w rows) /\
    NoDup (map row_country rows) /\
    (forall c, In c (map row_country rows) <-> In c (map country (shoe_list w))) /\
    (forall r, In r rows ->
       row_products r = Z.of_nat (length (group (row_country r) (shoe_list w))) /\
       row_quantity r = weigh quantity (group (row_country r) (shoe_list w))) /\
    sum_rows row_products rows = Z.of_nat (length (shoe_list w)) /\
    sum_rows row_quantity rows = weigh quantity (shoe_list w).
Proof.
  intros Hne Hf.
  exists (map snd (sort_desc (with_keys (by_country (shoe_list w))))).
  split; [apply stock_by_country_rows; assumption|].
  destruct (sorted_rows (by_country (shoe_list w))) as [Hp _].
  cbv zeta in Hp.
  pose proof (Permutation_map row_country Hp) as Hpc.
  rewrite by_country_countries in Hpc.
  destruct (by_country_totals (shoe_list w)) as [Hn Hq].
  split; [|split; [|split; [|split]]].
  - apply (Permutation_NoDup (Permutation_sym Hpc)). apply first_seen_nodup.
  - intro c. rewrite <- (in_first_seen c (map country (shoe_list w))). split; intro H.
    + exact (Permutation_in _ Hpc H).
    + exact (Permutation_in _ (Permutation_sym Hpc) H).
  - intros r Hr. apply (Permutation_in _ Hp) in Hr.
    unfold by_country in Hr. apply in_map_iff in Hr. destruct Hr as [c [<- _]].
    cbn [group_row row_products row_quantity row_country].
    split; [reflexivity|apply sum_quantities_weigh].
  - rewrite (@sum_rows_perm row_products _ _ Hp). exact Hn.
  - rewrite (@sum_rows_perm row_quantity _ _ Hp). exact Hq.
Qed.

Lemma report_accounts_for_every_record_witness :
  exists rows,
    stock_by_country (mkWorld three_shoes None [] []) =
      Return tt (reported (mkWorld three_shoes None [] []) rows) /\
    NoDup (map row_country rows) /\
    (forall c, In c (map row_country rows) <-> In c (map country three_shoes)) /\
    (forall r, In r rows ->
       row_products r = Z.of_nat (length (group (row_country r) three_shoes)) /\
       row_quantity r = weigh quantity (group (row_country r) three_shoes)) /\
    sum_rows row_products rows = Z.of_nat (length three_shoes) /\
    sum_rows row_quantity rows = weigh quantity three_shoes.
Proof.
  apply (@report_accounts_for_every_record (mkWorld three_shoes None [] [])).
  - discriminate.
  - repeat constructor; vm_compute; discriminate.
Defined.

(* ================================================================== *)
(** * Records are never removed *)
(* ================================================================== *)

(** X17: [capture_shoes] adds all or nothing.  Either it returns, with
    one record more at the end of the store and one line more at the
    end of the file; or the input ran out, it raises [EOFError], and
    the store and the file are as they were. *)
Theorem add_is_all_or_nothing (w : world) :
  (exists w' sh,
     capture_shoes w = Return tt w' /\
     shoe_list w' = shoe_list w ++ [sh] /\
     inventory_txt w' = Some (file_or_empty (inventory_txt w) ++ line_of sh)) \/
  (exists w',
     capture_shoes w = Raise end_of_input w' /\
     stdin w' = [] /\
     shoe_list w' = shoe_list w /\
     inventory_txt w' = inventory_txt w).
Proof.
  destruct (capture_shoes_cases w) as [[w' [E [Hs Hf]]]|[w' [sh [E [Hs [Hf _]]]]]].
  - right. exists w'. split; [exact E|]. split; [|split; assumption].
    destruct (@raises_capture_shoes w _ _ E) as [[_ H]|[H _]]; [exact H|discriminate].
  - left. exists w', sh. repeat split; assumption.
Qed.

Lemma raised_refl (a : Shoe) : raised a a.
Proof. unfold raised. repeat split; lia. Qed.

Lemma raised_trans (a b c : Shoe) : raised a b -> raised b c -> raised a c.
Proof.
  unfold raised. intros [H1 [H2 [H3 [H4 H5]]]] [G1 [G2 [G3 [G4 G5]]]].
  repeat split; try congruence. lia.
Qed.

Lemma raised_all_refl (l : list Shoe) : Forall2 raised l l.
Proof. induction l; constructor; [apply raised_refl|assumption]. Qed.

Lemma raised_all_trans (a b : list Shoe) :
  Forall2 raised a b -> forall c, Forall2 raised b c -> Forall2 raised a c.
Proof.
  induction 1 as [|x y a b Hxy Hab IH]; intros c Hc; inversion Hc; subst; constructor.
  - eapply raised_trans; eassumption.
  - apply IH. assumption.
Qed.

Lemma extends_refl (l : list Shoe) : extends l l.
Proof. exists l, []. split; [symmetry; apply app_nil_r|apply raised_all_refl]. Qed.

Lemma extends_trans (a b c : list Shoe) : extends a b -> extends b c -> extends a c.
Proof.
  intros [k1 [a1 [-> H1]]] [k2 [a2 [-> H2]]].
  apply Forall2_app_inv_l in H2. destruct H2 as [k2a [k2b [Ha [Hb ->]]]].
  exists k2a, (k2b ++ a2). split; [symmetry; apply app_assoc|].
  exact (@raised_all_trans _ _ H1 _ Ha).
Qed.

Lemma add_quantity_at_raised (i : nat) (add : Z) (l : list Shoe) :
  0 < add -> Forall2 raised l (add_quantity_at i add l).
Proof.
  intro H. revert i. induction l as [|sh l IH]; intros [|i]; cbn [add_quantity_at].
  - constructor.
  - constructor.
  - constructor; [|apply raised_all_refl]. unfold raised. cbn. repeat split; lia.
  - constructor; [apply raised_refl|apply IH].
Qed.

Lemma grows_refl (w : world) : grows w w.
Proof. apply extends_refl. Qed.

Lemma grows_trans (a b c : world) : grows a b -> grows b c -> grows a c.
Proof. apply extends_trans. Qed.

Lemma grows_console : console_only grows.
Proof. intros w ins out. apply extends_refl. Qed.

Lemma grows_capture_shoes : respects grows capture_shoes.
Proof.
  intro w. unfold grows.
  destruct (capture_shoes_cases w) as [[w' [E [Hs _]]]|[w' [sh [E [Hs _]]]]];
    rewrite E; cbn [world_of]; rewrite Hs.
  - apply extends_refl.
  - exists (shoe_list w), [sh]. split; [reflexivity|apply raised_all_refl].
Qed.

Lemma grows_re_stock : respects grows re_stock.
Proof.
  intro w. unfold grows.
  destruct (re_stock_data w) as [[Hs _]|[i [lowest [add [_ [Ha [Hs _]]]]]]]; rewrite Hs.
  - apply extends_refl.
  - exists (add_quantity_at i add (shoe_list w)), [].
    split; [symmetry; apply app_nil_r|apply add_quantity_at_raised; exact Ha].
Qed.

(** X18: [main] never removes a record and never lowers a quantity:
    when it ends, however it ends, the store holds the records loaded
    from the file at their positions, the same but for quantities that
    may be larger, followed by the records added since. *)
Theorem main_never_removes_records (py_sum : list float -> float) (w : world) :
  exists kept added,
    shoe_list (world_of (main py_sum w)) = kept ++ added /\
    Forall2 raised (loaded_from (inventory_txt w)) kept.
Proof.
  destruct (main_load_returns w) as [w1 [E [Hs _]]].
  destruct (main_unfold py_sum w) as [w1' [E' ->]].
  assert (w1' = w1) by congruence. subst w1'.
  rewrite <- Hs.
  apply (@respects_main_loop grows grows_refl grows_trans
           (console_emit grows_console) (console_input grows_console)
           grows_capture_shoes grows_re_stock py_sum (S (length (stdin w1))) w1).
Qed.

(* ================================================================== *)
(** * Whatever is typed *)
(* ================================================================== *)


(** X20: a round of the menu strips the choice before it compares it.
    The choice 9 prints the farewell line and leaves the loop; a choice
    that is none of 1 to 9 is refused with one line, and nothing else
    happens. *)
Theorem invalid_choice_is_refused
  (py_sum : list float -> float) (w : world) (typed : str) (rest : list str) :
  stdin w = typed :: rest ->
  (strip typed = s "9" ->
   menu_round py_sum w = Return true (printed (chosen w rest) farewell)) /\
  (~ In (strip typed) choices ->
   menu_round py_sum w =
   Return false (printed (chosen w rest) (s "Invalid choice, please try again"))).
Proof.
  intro Hin. rewrite menu_round_cases, Hin. split.
  - intros ->. reflexivity.
  - intro H. unfold dispatch, choices in *.
    repeat match goal with
           | |- context [eqb (strip typed) ?c] =>
               let E := fresh "E" in
               destruct (eqb (strip typed) c) eqn:E;
               [apply eqb_eq in E; destruct H; rewrite E; cbn [In]; tauto|clear E]
           end.
    reflexivity.
Qed.

Lemma invalid_choice_is_refused_witness :
  menu_round sum_left (menu_world [" 9 "]%string) =
    Return true (printed (chosen (menu_world [" 9 "]%string) []) farewell) /\
  menu_round sum_left (menu_world ["10"; "9"]%string) =
    Return false (printed (chosen (menu_world ["10"; "9"]%string) [s "9"])
                    (s "Invalid choice, please try again")).
Proof.
  split.
  - apply (proj1 (@invalid_choice_is_refused sum_left (menu_world [" 9 "]%string)
                    (s " 9 ") [] eq_refl)).
    vm_compute. reflexivity.
  - apply (proj2 (@invalid_choice_is_refused sum_left (menu_world ["10"; "9"]%string)
                    (s "10") [s "9"] eq_refl)).
    intro H. vm_compute in H.
    repeat (destruct H as [H|H]; [discriminate H|]). exact H.
Defined.


